(** * Client-management dashboard: text parser, filter engine, store adapter,
      REST read endpoint and one-shot migration.

    A shallow embedding of the TypeScript sources

      - components/agent-assignment/agent-assignment-dashboard.tsx
        (parser, filter effect, delete handler, administrator effect),
      - app/api/clients/route.ts (GET),
      - scripts/migrate-data.ts (migrateData),

    together with the properties the specification states about them.

    Strings.  A JavaScript string is a sequence of UTF-16 code units.  The
    development works on [string], i.e. on texts whose code units are all
    below 256 (the Latin-1 range); on that range [trim], [toLowerCase] and
    the [\d] class of regular expressions are modelled exactly. *)

From Stdlib Require Import String Ascii List Bool Arith ZArith Lia Permutation Floats.
From stdpp Require Import gmap strings.
Import ListNotations.

Local Open Scope string_scope.
Local Open Scope list_scope.
Local Open Scope nat_scope.

(** ** JavaScript string and array built-ins used by the sources *)

Module JS.

(** [WhiteSpace] and [LineTerminator] code units below 256: TAB, LF, VT,
    FF, CR, SP and NBSP. *)
Definition isWhiteSpace (c : ascii) : bool :=
  let n := nat_of_ascii c in
  ((9 <=? n) && (n <=? 13)) || (n =? 32) || (n =? 160).

(** [\d] of a non-unicode regular expression: the ten ASCII digits. *)
Definition isDigit (c : ascii) : bool :=
  let n := nat_of_ascii c in (48 <=? n) && (n <=? 57).

(** Simple lower-case mapping on Latin-1: A-Z and the accented capitals
    U+00C0..U+00DE except the multiplication sign U+00D7. *)
Definition lowerChar (c : ascii) : ascii :=
  let n := nat_of_ascii c in
  if ((65 <=? n) && (n <=? 90))
     || ((192 <=? n) && (n <=? 222) && negb (n =? 215))
  then ascii_of_nat (n + 32) else c.

Fixpoint toLowerCase (s : string) : string :=
  match s with
  | EmptyString => EmptyString
  | String c s' => String (lowerChar c) (toLowerCase s')
  end.

Fixpoint trimStart (s : string) : string :=
  match s with
  | EmptyString => EmptyString
  | String c s' => if isWhiteSpace c then trimStart s' else s
  end.

Fixpoint trimEnd (s : string) : string :=
  match s with
  | EmptyString => EmptyString
  | String c s' =>
      match trimEnd s' with
      | EmptyString => if isWhiteSpace c then EmptyString else String c EmptyString
      | r => String c r
      end
  end.

Definition trim (s : string) : string := trimEnd (trimStart s).

(** A string made of white space only; these are the strings [trim] empties
    ([JSFacts.trim_blank]). *)
Fixpoint blank (s : string) : bool :=
  match s with
  | EmptyString => true
  | String c s' => isWhiteSpace c && blank s'
  end.

(** The line feed ["\n"]. *)
Definition LF : string := String "010" EmptyString.

(** Truthiness of a string: only the empty string is falsy. *)
Definition truthy (s : string) : bool :=
  match s with EmptyString => false | _ => true end.

(** [a || b] on strings. *)
Definition orElse (a b : string) : string := if truthy a then a else b.

Fixpoint take (n : nat) (s : string) : string :=
  match n, s with
  | S n', String c s' => String c (take n' s')
  | _, _ => EmptyString
  end.

Fixpoint drop (n : nat) (s : string) : string :=
  match n, s with
  | S n', String _ s' => drop n' s'
  | _, _ => s
  end.

(** [s.indexOf(pat)]: the least position at which [pat] occurs, [None]
    standing for -1. *)
Fixpoint indexOf (pat s : string) : option nat :=
  if String.prefix pat s then Some 0
  else match s with
       | EmptyString => None
       | String _ s' => option_map S (indexOf pat s')
       end.

Definition includes (pat s : string) : bool :=
  match indexOf pat s with Some _ => true | None => false end.

Fixpoint chars (s : string) : list string :=
  match s with
  | EmptyString => []
  | String c s' => String c EmptyString :: chars s'
  end.

(** [s.split(sep)] for a non-empty separator cuts at the successive
    non-overlapping occurrences of [sep], found left to right.  Every cut
    removes at least one code unit, so [String.length s] rounds are enough
    (see [split_unfold]). *)
Fixpoint split_loop (fuel : nat) (sep s : string) : list string :=
  match fuel with
  | O => [s]
  | S fuel' =>
      match indexOf sep s with
      | None => [s]
      | Some i => take i s :: split_loop fuel' sep (drop (i + String.length sep) s)
      end
  end.

Definition split (sep s : string) : list string :=
  match sep with
  | EmptyString => chars s
  | _ => split_loop (String.length s) sep s
  end.

(** [parts.join(sep)]. *)
Fixpoint join (sep : string) (parts : list string) : string :=
  match parts with
  | [] => EmptyString
  | [p] => p
  | p :: rest => p +:+ sep +:+ join sep rest
  end.

Fixpoint digitRun (s : string) : string :=
  match s with
  | EmptyString => EmptyString
  | String c s' => if isDigit c then String c (digitRun s') else EmptyString
  end.

(** [s.match(/\d+/)]: the leftmost, longest run of digits; [None] is
    JavaScript's [null]. *)
Fixpoint matchDigits (s : string) : option string :=
  match s with
  | EmptyString => None
  | String c s' => if isDigit c then Some (digitRun s) else matchDigits s'
  end.

End JS.

(** ** The free-text client parser (processClientInfo, parsing part) *)

Module Parser.
Import JS.

(** The five local variables [name], [age], [location], [work] and
    [application] of [processClientInfo]. *)
Record Fields := mkFields {
  name : string;
  age : string;
  location : string;
  work : string;
  application : string
}.

Definition initial : Fields := mkFields "" "" "" "" "".

Definition setName (v : string) (f : Fields) : Fields :=
  mkFields v (age f) (location f) (work f) (application f).
Definition setAge (v : string) (f : Fields) : Fields :=
  mkFields (name f) v (location f) (work f) (application f).
Definition setLocation (v : string) (f : Fields) : Fields :=
  mkFields (name f) (age f) v (work f) (application f).
Definition setWork (v : string) (f : Fields) : Fields :=
  mkFields (name f) (age f) (location f) v (application f).
Definition setApplication (v : string) (f : Fields) : Fields :=
  mkFields (name f) (age f) (location f) (work f) v.

(** [const extractAge = (ageText) => { const numericMatch =
    ageText.match(/\d+/); return numericMatch ? numericMatch[0] : ageText }] *)
Definition extractAge (ageText : string) : string :=
  match matchDigits ageText with
  | Some numericMatch => numericMatch
  | None => ageText
  end.

(** [cleanName]: [nameText.split(" / ")[1].trim()] under the [includes]
    guard, [nameText.trim()] otherwise.  Element 1 of the split exists
    whenever the guard holds ([ParserFacts.cleanName_index_defined]), so the
    default of [nth] is never returned. *)
Definition cleanName (nameText : string) : string :=
  if includes " / " nameText
  then trim (nth 1 (split " / " nameText) "")
  else trim nameText.

(** Body of the [for (const line of lines)] loop of the labeled branch. *)
Definition assignLine (f : Fields) (line : string) : Fields :=
  if negb (includes ":" line) then f
  else
    match split ":" line with
    | [] => f
    | key :: valueParts =>
        let value := trim (join ":" valueParts) in
        let keyLower := toLowerCase (trim key) in
        if includes "name" keyLower then setName (cleanName value) f
        else if includes "age" keyLower then setAge (extractAge value) f
        else if includes "loc" keyLower then setLocation value f
        else if includes "work" keyLower || includes "occupation" keyLower
             then setWork value f
        else if includes "app" keyLower then setApplication value f
        else f
    end.

(** [clientText.split("\n").filter((line) => line.trim() !== "")] *)
Definition nonEmptyLines (clientText : string) : list string :=
  List.filter (fun line => negb (String.eqb (trim line) "")) (split LF clientText).

Definition hasLabels (lines : list string) : bool :=
  existsb (includes ":") lines.

Definition parseLabeled (lines : list string) : Fields :=
  fold_left assignLine lines initial.

Definition parsePositional (lines : list string) : Fields :=
  if 2 <=? length lines then
    let f1 := setName (cleanName (trim (nth 0 lines ""))) initial in
    let f2 := setAge (extractAge (trim (nth 1 lines ""))) f1 in
    let f3 := if 3 <=? length lines then setLocation (trim (nth 2 lines "")) f2 else f2 in
    let f4 := if 4 <=? length lines then setWork (trim (nth 3 lines "")) f3 else f3 in
    if 5 <=? length lines then setApplication (trim (nth 4 lines "")) f4 else f4
  else initial.

(** Lines 250-290 of the component: the values of the five locals when the
    validation [if (!name || !age)] is reached. *)
Definition parseFields (clientText : string) : Fields :=
  let lines := nonEmptyLines clientText in
  if hasLabels lines then parseLabeled lines else parsePositional lines.

(** [!name || !age] *)
Definition missingRequired (f : Fields) : bool :=
  negb (truthy (name f)) || negb (truthy (age f)).

(** *** Reading of a labeled line

    The field a labeled line is matched to and the value it gives that
    field, read off [assignLine]; used to state when two lines compete for
    one field. *)

Inductive Label := LName | LAge | LLocation | LWork | LApplication.

Definition keyLowerOf (line : string) : string :=
  toLowerCase (trim (nth 0 (split ":" line) "")).

Definition valueOf (line : string) : string :=
  trim (join ":" (tl (split ":" line))).

Definition labelOf (line : string) : option Label :=
  if negb (includes ":" line) then None
  else
    let keyLower := keyLowerOf line in
    if includes "name" keyLower then Some LName
    else if includes "age" keyLower then Some LAge
    else if includes "loc" keyLower then Some LLocation
    else if includes "work" keyLower || includes "occupation" keyLower then Some LWork
    else if includes "app" keyLower then Some LApplication
    else None.

Definition assignedValue (line : string) : string :=
  match labelOf line with
  | Some LName => cleanName (valueOf line)
  | Some LAge => extractAge (valueOf line)
  | _ => valueOf line
  end.

Definition assign (l : Label) (v : string) (f : Fields) : Fields :=
  match l with
  | LName => setName v f
  | LAge => setAge v f
  | LLocation => setLocation v f
  | LWork => setWork v f
  | LApplication => setApplication v f
  end.

(** The local variable a label stands for. *)
Definition read (l : Label) (f : Fields) : string :=
  match l with
  | LName => name f
  | LAge => age f
  | LLocation => location f
  | LWork => work f
  | LApplication => application f
  end.

(** [line.trim() !== ""] *)
Definition nonBlank (line : string) : bool := negb (String.eqb (trim line) "").

End Parser.

(** ** The dashboard component: state, parser action, filter effect,
       delete handler, administrator effect *)

Module Dashboard.
Import JS.

(** The [serverTimestamp()] sentinel. *)
Inductive FieldValue := ServerTimestamp.

Record ClientAssignment := mkClient {
  id : string;
  name : string;
  age : string;
  location : string;
  work : string;
  application : string;
  assignedAgent : string;
  date : string;
  createdAt : option FieldValue;
  updatedAt : option FieldValue
}.

(** The authenticated user, as far as the component reads it:
    [user.email] is a string or [null]. *)
Record User := mkUser { email : option string }.

Record Toast := mkToast {
  title : string;
  description : string;
  variant : option string
}.

Definition destructive (t d : string) : Toast := mkToast t d (Some "destructive").
Definition notice (t d : string) : Toast := mkToast t d None.

(** React state of the component together with the two stores it writes:
    the ["assignedClients"] key of the fallback store (the array that is
    serialised into it) and the remote ["clientAssignments"] collection
    (each document with its key in [id]). *)
Record State := mkState {
  clientText : string;
  clients : list ClientAssignment;
  user : option User;
  isAdmin : bool;
  localStorage : option (list ClientAssignment);
  remote : list ClientAssignment;
  toasts : list Toast
}.

(** What one invocation of a handler reads from its host: the clock, the
    key the remote store gives a new document, whether the remote call
    rejects, and [String.prototype.toUpperCase] (whose results can leave the
    Latin-1 range). *)
Record Env := mkEnv {
  today : string;
  dateNow : string;
  autoId : string;
  remoteRejects : bool;
  toUpperCase : string -> string
}.

Definition toast (t : Toast) (st : State) : State :=
  mkState (clientText st) (clients st) (user st) (isAdmin st)
          (localStorage st) (remote st) (toasts st ++ [t]).
Definition setClientText (v : string) (st : State) : State :=
  mkState v (clients st) (user st) (isAdmin st)
          (localStorage st) (remote st) (toasts st).
Definition setClients (v : list ClientAssignment) (st : State) : State :=
  mkState (clientText st) v (user st) (isAdmin st)
          (localStorage st) (remote st) (toasts st).
Definition setIsAdmin (v : bool) (st : State) : State :=
  mkState (clientText st) (clients st) (user st) v
          (localStorage st) (remote st) (toasts st).
Definition setItem (v : list ClientAssignment) (st : State) : State :=
  mkState (clientText st) (clients st) (user st) (isAdmin st)
          (Some v) (remote st) (toasts st).
Definition setRemote (v : list ClientAssignment) (st : State) : State :=
  mkState (clientText st) (clients st) (user st) (isAdmin st)
          (localStorage st) v (toasts st).

(** [user?.email ? user.email.split("@")[0] : ""] *)
Definition currentAgent (st : State) : string :=
  match user st with
  | Some u =>
      match email u with
      | Some e => if truthy e then nth 0 (split "@" e) "" else ""
      | None => ""
      end
  | None => ""
  end.

(** [currentAgent.charAt(0).toUpperCase() + currentAgent.slice(1)] *)
Definition capitalized (env : Env) (agent : string) : string :=
  if truthy agent then toUpperCase env (take 1 agent) +:+ drop 1 agent else "".

Definition newClient (env : Env) (st : State) (key : string) (f : Parser.Fields)
  : ClientAssignment :=
  mkClient key (Parser.name f) (Parser.age f)
           (orElse (Parser.location f) "Unknown")
           (orElse (Parser.work f) "Unknown")
           (orElse (Parser.application f) "Unknown")
           (capitalized env (currentAgent st))
           (today env) (Some ServerTimestamp) (Some ServerTimestamp).

Definition processClientInfo (env : Env) (st : State) : State :=
  if negb (truthy (trim (clientText st))) then
    toast (destructive "Error" "Please enter client information") st
  else
    let f := Parser.parseFields (clientText st) in
    if Parser.missingRequired f then
      toast (destructive "Error" "Name and age are required") st
    else
      let added :=
        notice "Success"
          ("Client " +:+ Parser.name f +:+ " has been added and assigned to "
             +:+ capitalized env (currentAgent st)) in
      match user st with
      | None =>
          let clientWithId := newClient env st (dateNow env) f in
          toast added
            (setClientText ""
               (setItem (clients st ++ [clientWithId])
                  (setClients (clients st ++ [clientWithId]) st)))
      | Some _ =>
          if remoteRejects env then
            toast (destructive "Error" "Failed to process client information") st
          else
            toast added
              (setClientText ""
                 (setRemote (remote st ++ [newClient env st (autoId env) f]) st))
      end.

(** *** Filter effect *)

(** A [Date] object as the filter reads it: invalid, or the local-time
    full year and month (0 = January). *)
Inductive Date := InvalidDate | LocalDate (fullYear month : Z).

(** A JavaScript number that is an integer or [NaN] ([None]). *)
Definition number := option Z.

Definition getMonth (d : Date) : number :=
  match d with InvalidDate => None | LocalDate _ m => Some m end.
Definition getFullYear (d : Date) : number :=
  match d with InvalidDate => None | LocalDate y _ => Some y end.

(** [a === b] on numbers: [NaN] equals nothing. *)
Definition strictEq (a b : number) : bool :=
  match a, b with
  | Some x, Some y => Z.eqb x y
  | _, _ => false
  end.

Definition minus (a : number) (k : Z) : number := option_map (fun x => (x - k)%Z) a.

Definition monthMap : list (string * Z) :=
  [("jan", 0); ("feb", 1); ("mar", 2); ("apr", 3); ("may", 4); ("jun", 5);
   ("jul", 6); ("aug", 7); ("sep", 8); ("oct", 9); ("nov", 10); ("dec", 11)]%Z.

Fixpoint lookupMonth (key : string) (m : list (string * Z)) : option Z :=
  match m with
  | [] => None
  | (k, v) :: rest => if String.eqb k key then Some v else lookupMonth key rest
  end.

Section FilterEffect.

(** [new Date(s)] read in the host's time zone, and the value of
    [new Date()] while the effect runs. *)
Variable newDate : string -> Date.
Variable currentDate : Date.

Definition matchesSearch (query : string) (client : ClientAssignment) : bool :=
  includes query (toLowerCase (name client))
  || includes query (toLowerCase (location client))
  || includes query (toLowerCase (work client))
  || includes query (toLowerCase (application client))
  || includes query (toLowerCase (assignedAgent client)).

Definition matchesMonth (monthFilter : string) (client : ClientAssignment) : bool :=
  let clientDate := newDate (date client) in
  if String.eqb monthFilter "current" then
    strictEq (getMonth clientDate) (getMonth currentDate)
    && strictEq (getFullYear clientDate) (getFullYear currentDate)
  else if String.eqb monthFilter "previous" then
    let prevMonth :=
      if strictEq (getMonth currentDate) (Some 0%Z) then Some 11%Z
      else minus (getMonth currentDate) 1 in
    let prevMonthYear :=
      if strictEq (getMonth currentDate) (Some 0%Z)
      then minus (getFullYear currentDate) 1
      else getFullYear currentDate in
    strictEq (getMonth clientDate) prevMonth
    && strictEq (getFullYear clientDate) prevMonthYear
  else
    match lookupMonth monthFilter monthMap with
    | Some m => strictEq (getMonth clientDate) (Some m)
    | None => false
    end.

(** The value handed to [setFilteredClients]. *)
Definition filteredClients (clients : list ClientAssignment)
    (searchQuery locationFilter applicationFilter agentFilter monthFilter : string)
  : list ClientAssignment :=
  let result := clients in
  let result :=
    if truthy searchQuery
    then List.filter (matchesSearch (toLowerCase searchQuery)) result
    else result in
  let result :=
    if negb (String.eqb locationFilter "all-locations")
    then List.filter (fun client => String.eqb (toLowerCase (location client)) locationFilter) result
    else result in
  let result :=
    if negb (String.eqb applicationFilter "all-applications")
    then List.filter (fun client => String.eqb (toLowerCase (application client)) applicationFilter) result
    else result in
  let result :=
    if negb (String.eqb agentFilter "all-agents")
    then List.filter (fun client => String.eqb (toLowerCase (assignedAgent client)) agentFilter) result
    else result in
  if negb (String.eqb monthFilter "all-months")
  then List.filter (matchesMonth monthFilter) result
  else result.

End FilterEffect.

(** *** Delete handler *)

Definition keepOthers (clientId : string) (l : list ClientAssignment) : list ClientAssignment :=
  List.filter (fun client => negb (String.eqb (id client) clientId)) l.

Definition handleDeleteClient (env : Env) (clientId : string) (st : State) : State :=
  if negb (isAdmin st) then
    toast (destructive "Permission Denied"
             "Only administrators can delete client records") st
  else
    let deleted := notice "Client Deleted" "Client has been deleted successfully" in
    match user st with
    | None =>
        toast deleted
          (setItem (keepOthers clientId (clients st))
             (setClients (keepOthers clientId (clients st)) st))
    | Some _ =>
        if remoteRejects env then
          toast (destructive "Error" "Failed to delete client") st
        else
          toast deleted (setRemote (keepOthers clientId (remote st)) st)
    end.

(** *** Administrator effect *)

Definition adminEmails : list string := ["admin@example.com"; "manager@example.com"].

(** [Array.prototype.includes] on an array of strings. *)
Definition arrayIncludes (l : list string) (x : string) : bool :=
  existsb (String.eqb x) l.

(** The effect run whenever [user] changes. *)
Definition adminEffect (st : State) : State :=
  match user st with
  | Some u =>
      let listed :=
        arrayIncludes adminEmails
          (match email u with Some e => orElse e "" | None => "" end) in
      let named :=
        match email u with Some e => includes "admin" e | None => false end in
      setIsAdmin (listed || named || false) st
  | None => setIsAdmin false st
  end.

(** *** Subscription to the remote collection and fallback load *)

(** The record the snapshot listener builds from a document of the remote
    collection, read here as this component writes it: the key in [id],
    string fields, an absent field as the empty string. *)
Definition fromSnapshot (env : Env) (doc : ClientAssignment) : ClientAssignment :=
  mkClient (id doc)
           (orElse (name doc) "")
           (orElse (age doc) "")
           (orElse (location doc) "Unknown")
           (orElse (work doc) "Unknown")
           (orElse (application doc) "Unknown")
           (orElse (assignedAgent doc) "")
           (orElse (date doc) (today env))
           None None.

(** Success callback of [onSnapshot]: the whole list is replaced. *)
Definition onSnapshot (env : Env) (st : State) : State :=
  setClients (map (fromSnapshot env) (remote st)) st.



(** *** Dashboard figures *)

Definition agents : list string :=
  ["Annie"; "Cuu"; "Jhe"; "Kel"; "Ken"; "Kyrie"; "Lovely"; "Mar"; "Primo"; "Thac"; "Vivian"].

Definition totalClients (clients : list ClientAssignment) : nat := length clients.

(** [clients.filter((client) => client.assignedAgent.toLowerCase() === agentName).length] *)
Definition workload (clients : list ClientAssignment) (agentName : string) : nat :=
  length (List.filter (fun client => String.eqb (toLowerCase (assignedAgent client)) agentName) clients).

(** [acc[k] = v] on an object whose keys are not array indices: an existing
    key keeps its place, a new key is added last. *)
Fixpoint setProp {V : Type} (k : string) (v : V) (acc : list (string * V)) : list (string * V) :=
  match acc with
  | [] => [(k, v)]
  | (k', v') :: rest =>
      if String.eqb k' k then (k', v) :: rest else (k', v') :: setProp k v rest
  end.

(** [agents.reduce((acc, agent) => { ... }, {})]; the result is read in
    property order, as [Object.entries] lists it. *)
Definition agentWorkloads (clients : list ClientAssignment) : list (string * nat) :=
  fold_left
    (fun acc agent =>
       let agentName := toLowerCase agent in
       setProp agentName (workload clients agentName) acc)
    agents [].

(** [Array.prototype.sort] with a comparator is stable; with a consistent
    comparator its result is the one an insertion sort produces.  An element
    moves behind a later one only when the comparator is positive. *)
Fixpoint insertSorted {A : Type} (cmp : A -> A -> Z) (x : A) (sorted : list A) : list A :=
  match sorted with
  | [] => [x]
  | y :: rest =>
      if (0 <? cmp x y)%Z then y :: insertSorted cmp x rest else x :: sorted
  end.

Definition sort {A : Type} (cmp : A -> A -> Z) (l : list A) : list A :=
  fold_right (insertSorted cmp) [] l.

(** [Object.entries(agentWorkloads).sort((a, b) => b[1] - a[1])[0]] *)
Definition topAgent (clients : list ClientAssignment) : option (string * nat) :=
  head (sort (fun a b => (Z.of_nat (snd b) - Z.of_nat (snd a))%Z) (agentWorkloads clients)).

(** [topAgent && topAgent[1] > 0
     ? agents.find((a) => a.toLowerCase() === topAgent[0]) || "-" : "-"] *)
Definition topAgentName (clients : list ClientAssignment) : string :=
  match topAgent clients with
  | Some (k, n) =>
      if 0 <? n then
        match find (fun a => String.eqb (toLowerCase a) k) agents with
        | Some a => orElse a "-"
        | None => "-"
        end
      else "-"
  | None => "-"
  end.

(** [[...new Set(values)]]: first occurrences, in order. *)
Fixpoint unique (values : list string) : list string :=
  match values with
  | [] => []
  | v :: rest => v :: List.filter (fun w => negb (String.eqb w v)) (unique rest)
  end.

Definition uniqueLocations (clients : list ClientAssignment) : list string :=
  unique (map (fun client => toLowerCase (location client)) clients).

Definition uniqueApplications (clients : list ClientAssignment) : list string :=
  unique (map (fun client => toLowerCase (application client)) clients).

(** *** Inline editing *)

(** The keys of a record that hold a string. *)
Inductive Field :=
| FId | FName | FAge | FLocation | FWork | FApplication | FAssignedAgent | FDate.

Definition fieldName (f : Field) : string :=
  match f with
  | FId => "id" | FName => "name" | FAge => "age" | FLocation => "location"
  | FWork => "work" | FApplication => "application"
  | FAssignedAgent => "assignedAgent" | FDate => "date"
  end.

(** [client[field]] *)
Definition getField (f : Field) (client : ClientAssignment) : string :=
  match f with
  | FId => id client | FName => name client | FAge => age client
  | FLocation => location client | FWork => work client
  | FApplication => application client
  | FAssignedAgent => assignedAgent client | FDate => date client
  end.

(** [{ ...client, [field]: value }] *)
Definition setField (f : Field) (v : string) (c : ClientAssignment) : ClientAssignment :=
  match f with
  | FId => mkClient v (name c) (age c) (location c) (work c) (application c) (assignedAgent c) (date c) (createdAt c) (updatedAt c)
  | FName => mkClient (id c) v (age c) (location c) (work c) (application c) (assignedAgent c) (date c) (createdAt c) (updatedAt c)
  | FAge => mkClient (id c) (name c) v (location c) (work c) (application c) (assignedAgent c) (date c) (createdAt c) (updatedAt c)
  | FLocation => mkClient (id c) (name c) (age c) v (work c) (application c) (assignedAgent c) (date c) (createdAt c) (updatedAt c)
  | FWork => mkClient (id c) (name c) (age c) (location c) v (application c) (assignedAgent c) (date c) (createdAt c) (updatedAt c)
  | FApplication => mkClient (id c) (name c) (age c) (location c) (work c) v (assignedAgent c) (date c) (createdAt c) (updatedAt c)
  | FAssignedAgent => mkClient (id c) (name c) (age c) (location c) (work c) (application c) v (date c) (createdAt c) (updatedAt c)
  | FDate => mkClient (id c) (name c) (age c) (location c) (work c) (application c) (assignedAgent c) v (createdAt c) (updatedAt c)
  end.

(** [updateDoc(ref, { [field]: value, updatedAt: serverTimestamp() })] on a
    remote document; a data field named [id] is not the document's key. *)
Definition updateData (f : Field) (v : string) (c : ClientAssignment) : ClientAssignment :=
  let c' := match f with FId => c | _ => setField f v c end in
  mkClient (id c') (name c') (age c') (location c') (work c') (application c')
           (assignedAgent c') (date c') (createdAt c') (Some ServerTimestamp).

Record EditingCell := mkCell {
  clientId : option string;
  field : option Field;
  value : string
}.

(** [{ clientId: null, field: null, value: "" }] *)
Definition noCell : EditingCell := mkCell None None "".

(** The component state the edit handlers work on. *)
Record Editor := mkEditor {
  state : State;
  editingCell : EditingCell;
  selectedDate : option Date
}.

Definition startEdit (newDate : string -> Date) (client : ClientAssignment)
    (f : Field) (ed : Editor) : Editor :=
  match f with
  | FId => ed
  | _ =>
      mkEditor (state ed)
               (mkCell (Some (id client)) (Some f) (getField f client))
               (match f with
                | FDate => Some (newDate (date client))
                | _ => selectedDate ed
                end)
  end.

(** [onChange: setEditingCell({ ...editingCell, value: e.target.value })] *)
Definition changeValue (v : string) (ed : Editor) : Editor :=
  mkEditor (state ed)
           (mkCell (clientId (editingCell ed)) (field (editingCell ed)) v)
           (selectedDate ed).

Definition hasDoc (key : string) (docs : list ClientAssignment) : bool :=
  existsb (fun d => String.eqb (id d) key) docs.

(** [saveEdit]; [updateDoc] throws when the remote call is rejected or the
    document does not exist. *)
Definition saveEdit (env : Env) (ed : Editor) : Editor :=
  match clientId (editingCell ed), field (editingCell ed) with
  | Some cid, Some f =>
      if truthy cid then
        let st := state ed in
        let v := value (editingCell ed) in
        let updated :=
          notice "Updated" ("Client " +:+ fieldName f +:+ " updated successfully") in
        let st' :=
          match user st with
          | None =>
              let updatedClients :=
                map (fun client =>
                       if String.eqb (id client) cid then setField f v client else client)
                    (clients st) in
              toast updated (setItem updatedClients (setClients updatedClients st))
          | Some _ =>
              if remoteRejects env || negb (hasDoc cid (remote st)) then
                toast (destructive "Error" "Failed to update client information") st
              else
                toast updated
                  (setRemote
                     (map (fun d => if String.eqb (id d) cid then updateData f v d else d)
                          (remote st))
                     st)
          end in
        mkEditor st' noCell None
      else ed
  | _, _ => ed
  end.

Definition cancelEdit (ed : Editor) : Editor :=
  mkEditor (state ed) noCell None.

(** What the user can do to a cell. *)
Inductive EditEvent :=
| Click (client : ClientAssignment) (f : Field)
| Input (v : string)
| Commit
| Escape.

Definition editStep (newDate : string -> Date) (env : Env) (ed : Editor) (ev : EditEvent) : Editor :=
  match ev with
  | Click client f => startEdit newDate client f ed
  | Input v => changeValue v ed
  | Commit => saveEdit env ed
  | Escape => cancelEdit ed
  end.

Definition editRun (newDate : string -> Date) (env : Env) (ed : Editor)
    (evs : list EditEvent) : Editor :=
  fold_left (editStep newDate env) evs ed.

(** *** The filter effect as one criterion

    The conjunction of the active criteria, record by record; the filter
    effect is shown to keep exactly the records that satisfy it. *)
Definition keeps (newDate : string -> Date) (currentDate : Date)
    (searchQuery locationFilter applicationFilter agentFilter monthFilter : string)
    (client : ClientAssignment) : bool :=
  (negb (truthy searchQuery) || matchesSearch (toLowerCase searchQuery) client)
  && (String.eqb locationFilter "all-locations"
      || String.eqb (toLowerCase (location client)) locationFilter)
  && (String.eqb applicationFilter "all-applications"
      || String.eqb (toLowerCase (application client)) applicationFilter)
  && (String.eqb agentFilter "all-agents"
      || String.eqb (toLowerCase (assignedAgent client)) agentFilter)
  && (String.eqb monthFilter "all-months"
      || matchesMonth newDate currentDate monthFilter client).

(** *** Sessions of use *)

(** A record with every parsed field filled in. *)
Definition complete (c : ClientAssignment) : bool :=
  truthy (name c) && truthy (age c) && truthy (location c)
  && truthy (work c) && truthy (application c).





(** *** Reading a date-only string

    [new Date("yyyy-mm-dd")] is midnight UTC of that calendar day; [getMonth]
    and [getFullYear] read it in the host's local time, that is, shifted by
    the host's offset from UTC at that instant. *)

Definition digitValue (c : ascii) : option Z :=
  if isDigit c then Some (Z.of_nat (nat_of_ascii c) - 48)%Z else None.

Definition isLeapYear (y : Z) : bool :=
  ((y mod 4 =? 0) && (negb (y mod 100 =? 0) || (y mod 400 =? 0)))%Z.

(** Days of month [m] (1 = January) in year [y]. *)
Definition daysInMonth (y m : Z) : Z :=
  (if (m =? 2) then (if isLeapYear y then 29 else 28)
   else if (m =? 4) || (m =? 6) || (m =? 9) || (m =? 11) then 30
   else 31)%Z.

(** The calendar day a string of the form yyyy-mm-dd names: year, month
    (1 to 12) and day; [None] for every other string. *)
Definition parseISODate (s : string) : option (Z * Z * Z) :=
  match s with
  | String y1 (String y2 (String y3 (String y4 (String "-"
      (String m1 (String m2 (String "-" (String d1 (String d2 EmptyString))))))))) =>
      match digitValue y1, digitValue y2, digitValue y3, digitValue y4,
            digitValue m1, digitValue m2, digitValue d1, digitValue d2 with
      | Some a, Some b, Some c, Some d, Some e, Some f, Some g, Some h =>
          let y := (1000 * a + 100 * b + 10 * c + d)%Z in
          let m := (10 * e + f)%Z in
          let dd := (10 * g + h)%Z in
          if ((1 <=? m) && (m <=? 12) && (1 <=? dd) && (dd <=? daysInMonth y m))%Z
          then Some (y, m, dd) else None
      | _, _, _, _, _, _, _, _ => None
      end
  | _ => None
  end.

Definition dayBefore (date : Z * Z * Z) : Z * Z * Z :=
  let '(y, m, d) := date in
  (if 1 <? d then (y, m, d - 1)
   else if 1 <? m then (y, m - 1, daysInMonth y (m - 1))
   else (y - 1, 12, 31))%Z.

Definition dayAfter (date : Z * Z * Z) : Z * Z * Z :=
  let '(y, m, d) := date in
  (if d <? daysInMonth y m then (y, m, d + 1)
   else if m <? 12 then (y, m + 1, 1)
   else (y + 1, 1, 1))%Z.

Definition addDays (k : Z) (date : Z * Z * Z) : Z * Z * Z :=
  if (0 <=? k)%Z then Z.iter k dayAfter date else Z.iter (- k) dayBefore date.

(** [new Date(s)] as the filter reads it on a host whose local time is
    [offsetAt y m d] minutes ahead of UTC at midnight UTC of the day
    y-m-d (negative when behind): the local calendar day is the UTC day
    moved by the whole days the offset spans.  How the host reads a string
    of any other form is [otherwise]. *)
Definition newDateISO (offsetAt : Z -> Z -> Z -> Z) (otherwise : string -> Date)
    (s : string) : Date :=
  match parseISODate s with
  | Some (y, m, d) =>
      let '(y', m', _) := addDays (offsetAt y m d / 1440) (y, m, d) in
      LocalDate y' (m' - 1)
  | None => otherwise s
  end.

(** *** Upper case of ASCII text *)

Definition upperCharASCII (c : ascii) : ascii :=
  let n := nat_of_ascii c in
  if (97 <=? n) && (n <=? 122) then ascii_of_nat (n - 32) else c.

(** [String.prototype.toUpperCase] on a text of ASCII characters. *)
Fixpoint toUpperCaseASCII (s : string) : string :=
  match s with
  | EmptyString => EmptyString
  | String c s' => String (upperCharASCII c) (toUpperCaseASCII s')
  end.

End Dashboard.

(** ** Values held by the document store and by parsed JSON *)

Module Store.

(** JSON values, [undefined], the [serverTimestamp()] sentinel, and the two
    forms of [Date] construction the sources use, kept symbolic:
    [new Date()] and [new Date(v)]. *)
#[warnings="-register-all"]
Inductive value :=
| VUndefined
| VNull
| VBool (b : bool)
| VNum (x : float)
| VStr (s : string)
| VServerTimestamp
| VDateNow
| VDateOf (v : value)
| VArr (items : list value)
| VObj (props : gmap string value).

Abbreviation obj := (gmap string value).

(** Truthiness. *)
Definition truthy (v : value) : bool :=
  match v with
  | VUndefined | VNull => false
  | VBool b => b
  | VNum x => negb (PrimFloat.is_zero x || PrimFloat.is_nan x)
  | VStr s => JS.truthy s
  | _ => true
  end.

(** [a || b] *)
Definition orElse (a b : value) : value := if truthy a then a else b.

(** Property read [o.k]: [undefined] when the property is absent. *)
Definition get (o : obj) (k : string) : value := default VUndefined (o !! k).

(** Object literal [{ k1: v1, ..., kn: vn }] with distinct keys. *)
Definition literal (props : list (string * value)) : obj := list_to_map props.

(** Spread [{ ...src }] into an object under construction: every own
    property of [src] is written over [target]. *)
Definition spread (src target : obj) : obj := src ∪ target.

End Store.

(** ** GET /clients *)

Module Route.
Import Store.

Record QueryDocumentSnapshot := mkDoc {
  id : string;
  data : obj
}.

Inductive Body :=
| Clients (items : list obj)
| Error (message : string).

Record Response := mkResponse { status : nat; body : Body }.

(** [{ id: doc.id, ...doc.data() }] *)
Definition toClient (doc : QueryDocumentSnapshot) : obj :=
  spread (data doc) (literal [("id", VStr (id doc))]).

(** [currentUser] is [auth.currentUser] ([None] for [null]); [getDocs] is the
    outcome of reading the ["clients"] collection, [None] when it throws. *)
Definition GET {U : Type} (currentUser : option U)
    (getDocs : option (list QueryDocumentSnapshot)) : Response :=
  match currentUser with
  | None => mkResponse 401 (Error "Unauthorized")
  | Some _ =>
      match getDocs with
      | Some docs => mkResponse 200 (Clients (map toClient docs))
      | None => mkResponse 500 (Error "Failed to fetch clients")
      end
  end.

(** *** POST /clients *)

(** The document [POST] hands to [addDoc]. *)
Definition newClientDoc (client : obj) : obj :=
  literal [
    ("shopId", get client "shopId");
    ("clientName", get client "clientName");
    ("agent", get client "agent");
    ("kycDate", if truthy (get client "kycDate") then VDateOf (get client "kycDate") else VNull);
    ("status", orElse (get client "status") (VStr "In Process"));
    ("notes", orElse (get client "notes") (VStr ""));
    ("createdAt", VServerTimestamp);
    ("updatedAt", VServerTimestamp)
  ].

Inductive PostBody :=
| Echo (client : obj)
| PostError (message : string).

Record PostResponse := mkPostResponse { postStatus : nat; postBody : PostBody }.

(** [request] is the JSON object [request.json()] resolves to, [None] when
    it throws; [docRefId] is the key [addDoc] returns, [None] when it throws.
    The result is the answer and the document added to the ["clients"]
    collection, if any.  The answer's body is the object handed to
    [NextResponse.json]; its serialisation is not part of the model (a
    number that is not finite, for one, is sent as [null]). *)
Definition POST {U : Type} (currentUser : option U) (request : option obj)
    (docRefId : option string)
  : PostResponse * option QueryDocumentSnapshot :=
  match currentUser with
  | None => (mkPostResponse 401 (PostError "Unauthorized"), None)
  | Some _ =>
      match request with
      | None => (mkPostResponse 500 (PostError "Failed to add client"), None)
      | Some client =>
          match docRefId with
          | None => (mkPostResponse 500 (PostError "Failed to add client"), None)
          | Some key =>
              (mkPostResponse 200 (Echo (spread client (literal [("id", VStr key)]))),
               Some (mkDoc key (newClientDoc client)))
          end
      end
  end.

End Route.

(** ** One-shot migration *)

Module Migrate.
Import Store.

(** The fallback store, each key with the array of objects its JSON text
    parses to; an absent key reads as ["[]"]. *)
Abbreviation Storage := (gmap string (list obj)).

Definition getItems (ls : Storage) (key : string) : list obj := default [] (ls !! key).

(** The remote store as the sequence of accepted [addDoc] calls:
    collection name and document. *)
Abbreviation Writes := (list (string * obj)).

Definition clientDoc (client : obj) : obj :=
  literal [
    ("shopId", get client "shopId");
    ("clientName", get client "clientName");
    ("agent", get client "agent");
    ("kycDate", if truthy (get client "kycDate") then VDateOf (get client "kycDate") else VNull);
    ("status", get client "status");
    ("notes", orElse (get client "notes") (VStr ""));
    ("createdAt", VServerTimestamp);
    ("updatedAt", VServerTimestamp)
  ].

Definition orderDoc (order : obj) : obj :=
  literal [
    ("orderId", get order "orderId");
    ("shopId", get order "shopId");
    ("clientName", get order "clientName");
    ("agent", get order "agent");
    ("date", if truthy (get order "date") then VDateOf (get order "date") else VDateNow);
    ("location", get order "location");
    ("price", get order "price");
    ("status", get order "status");
    ("createdAt", VServerTimestamp);
    ("updatedAt", VServerTimestamp)
  ].

Definition depositDoc (deposit : obj) : obj :=
  literal [
    ("depositId", get deposit "depositId");
    ("shopId", get deposit "shopId");
    ("clientName", get deposit "clientName");
    ("agent", get deposit "agent");
    ("date", if truthy (get deposit "date") then VDateOf (get deposit "date") else VDateNow);
    ("amount", get deposit "amount");
    ("paymentMode", get deposit "paymentMode");
    ("createdAt", VServerTimestamp);
    ("updatedAt", VServerTimestamp)
  ].

Definition withdrawalDoc (withdrawal : obj) : obj :=
  literal [
    ("withdrawalId", get withdrawal "withdrawalId");
    ("shopId", get withdrawal "shopId");
    ("clientName", get withdrawal "clientName");
    ("agent", get withdrawal "agent");
    ("date", if truthy (get withdrawal "date") then VDateOf (get withdrawal "date") else VDateNow);
    ("amount", get withdrawal "amount");
    ("paymentMode", get withdrawal "paymentMode");
    ("createdAt", VServerTimestamp);
    ("updatedAt", VServerTimestamp)
  ].

Definition orderRequestDoc (request : obj) : obj :=
  literal [
    ("shopId", get request "shopId");
    ("clientName", get request "clientName");
    ("agent", get request "agent");
    ("date", if truthy (get request "date") then VDateOf (get request "date") else VDateNow);
    ("location", get request "location");
    ("price", get request "price");
    ("status", get request "status");
    ("remarks", orElse (get request "remarks") (VStr ""));
    ("createdAt", VDateOf (get request "createdAt"));
    ("updatedAt", VServerTimestamp)
  ].

Definition isUndefined (v : value) : bool :=
  match v with VUndefined => true | _ => false end.

(** [addDoc] as the store validates a document by default: one with a field
    whose value is [undefined] is refused. *)
Definition refusesUndefined (coll : string) (doc : obj) : bool :=
  forallb (fun kv => negb (isUndefined (snd kv))) (map_to_list doc).

(** Where a migrated document comes from: the collection it is written to
    and the stored record it is built from. *)
Definition origin (ls : Storage) (e : string * obj) : Prop :=
  (exists x, In x (getItems ls "clients") /\ e = ("clients", clientDoc x))
  \/ (exists x, In x (getItems ls "orders") /\ e = ("orders", orderDoc x))
  \/ (exists x, In x (getItems ls "deposits") /\ e = ("deposits", depositDoc x))
  \/ (exists x, In x (getItems ls "withdrawals") /\ e = ("withdrawals", withdrawalDoc x))
  \/ (exists x, In x (getItems ls "orderRequests") /\ e = ("orderRequests", orderRequestDoc x)).

Section Migration.

(** Whether the remote store accepts a given [addDoc]; a rejected call
    throws and ends the migration. *)
Variable accepts : string -> obj -> bool.

(** [for (const x of items) { await addDoc(collection(db, coll), build x) }];
    the boolean tells whether the loop ran to its end. *)
Fixpoint insertAll (coll : string) (build : obj -> obj) (items : list obj)
    (db : Writes) : Writes * bool :=
  match items with
  | [] => (db, true)
  | x :: rest =>
      if accepts coll (build x)
      then insertAll coll build rest (db ++ [(coll, build x)])
      else (db, false)
  end.

(** The loops of the migration as one: the given documents are written in
    order until one is rejected. *)
Fixpoint writeAll (entries : Writes) (db : Writes) : Writes * bool :=
  match entries with
  | [] => (db, true)
  | e :: rest =>
      if accepts (fst e) (snd e)
      then writeAll rest (db ++ [e])
      else (db, false)
  end.

(** Sequencing of two loops: the second runs only if the first completed. *)
Definition andThen (r : Writes * bool) (k : Writes -> Writes * bool) : Writes * bool :=
  if snd r then k (fst r) else r.

(** Returns the writes made and whether ["Migration completed"] was logged. *)
Definition migrateData (ls : Storage) (db : Writes) : Writes * bool :=
  let clients := getItems ls "clients" in
  let orders := getItems ls "orders" in
  let deposits := getItems ls "deposits" in
  let withdrawals := getItems ls "withdrawals" in
  let orderRequests := getItems ls "orderRequests" in
  andThen (insertAll "clients" clientDoc clients db) (fun db =>
  andThen (insertAll "orders" orderDoc orders db) (fun db =>
  andThen (insertAll "deposits" depositDoc deposits db) (fun db =>
  andThen (insertAll "withdrawals" withdrawalDoc withdrawals db) (fun db =>
  insertAll "orderRequests" orderRequestDoc orderRequests db)))).

End Migration.

(** The writes of a migration none of whose [addDoc] calls is rejected. *)
Definition allWrites (ls : Storage) : Writes :=
  map (fun x => ("clients", clientDoc x)) (getItems ls "clients")
  ++ map (fun x => ("orders", orderDoc x)) (getItems ls "orders")
  ++ map (fun x => ("deposits", depositDoc x)) (getItems ls "deposits")
  ++ map (fun x => ("withdrawals", withdrawalDoc x)) (getItems ls "withdrawals")
  ++ map (fun x => ("orderRequests", orderRequestDoc x)) (getItems ls "orderRequests").

End Migrate.

(** * Properties *)

(** ** Facts about the built-ins *)

Module JSFacts.
Import JS.

Example split_name_separator : split " / " "a / b / c" = ["a"; "b"; "c"].
Proof. reflexivity. Qed.

Example split_overlapping : split " / " "a / / b" = ["a"; "/ b"].
Proof. reflexivity. Qed.

Example split_colons : split ":" "Time: 10:30" = ["Time"; " 10"; "30"].
Proof. reflexivity. Qed.

Example trim_both_ends : trim "  a b  " = "a b".
Proof. reflexivity. Qed.

Example toLowerCase_ascii : toLowerCase "Full NAME" = "full name".
Proof. reflexivity. Qed.

Example matchDigits_first_run : matchDigits "about 41yrs, 7 months" = Some "41".
Proof. reflexivity. Qed.

Lemma indexOf_eq (pat s : string) :
  indexOf pat s =
  if String.prefix pat s then Some 0
  else match s with
       | EmptyString => None
       | String _ s' => option_map S (indexOf pat s')
       end.
Proof. destruct s; reflexivity. Qed.

Lemma append_cons (c : ascii) (a b : string) :
  String c a +:+ b = String c (a +:+ b).
Proof. reflexivity. Qed.

Lemma append_take_drop (n : nat) (s : string) : take n s +:+ drop n s = s.
Proof.
  revert s; induction n as [|n IH]; intros [|c s]; simpl; try reflexivity.
  now rewrite append_cons, IH.
Qed.

Lemma length_drop (n : nat) (s : string) :
  String.length (drop n s) = String.length s - n.
Proof.
  revert s; induction n as [|n IH]; intros [|c s]; simpl; auto with arith.
Qed.

Lemma prefix_drop (p s : string) :
  String.prefix p s = true -> s = p +:+ drop (String.length p) s.
Proof.
  revert s; induction p as [|a p IH]; intros s H; [reflexivity|].
  destruct s as [|b s]; simpl in H; [discriminate|].
  destruct (ascii_dec a b) as [->|]; [|discriminate].
  simpl. rewrite append_cons. f_equal. now apply IH.
Qed.

Lemma prefix_length (p s : string) :
  String.prefix p s = true -> String.length p <= String.length s.
Proof.
  revert s; induction p as [|a p IH]; intros s H; [simpl; lia|].
  destruct s as [|b s]; simpl in H; [discriminate|].
  destruct (ascii_dec a b); [|discriminate].
  simpl. apply IH in H. lia.
Qed.

(** The position found by [indexOf] cuts the string around the pattern. *)
Lemma indexOf_Some (pat s : string) (i : nat) :
  indexOf pat s = Some i ->
  s = take i s +:+ pat +:+ drop (i + String.length pat) s
  /\ i + String.length pat <= String.length s.
Proof.
  revert i; induction s as [|c s IH]; intros i; rewrite indexOf_eq;
    destruct (String.prefix pat _) eqn:P.
  - intros [= <-]. split; [now apply prefix_drop | now apply prefix_length in P].
  - discriminate.
  - intros [= <-]. split; [now apply prefix_drop in P | now apply prefix_length in P].
  - destruct (indexOf pat s) as [j|]; [|discriminate].
    intros [= <-]. destruct (IH j eq_refl) as [E L]. simpl.
    split; [now rewrite append_cons, <- E | lia].
Qed.

Lemma indexOf_empty (pat : string) : pat <> "" -> indexOf pat "" = None.
Proof. destruct pat; [contradiction | reflexivity]. Qed.

Lemma includes_indexOf (pat s : string) :
  includes pat s = true <-> exists i, indexOf pat s = Some i.
Proof.
  unfold includes. destruct (indexOf pat s); split; eauto; try discriminate.
  intros [? [=]].
Qed.

Lemma includes_false (pat s : string) :
  includes pat s = false <-> indexOf pat s = None.
Proof. unfold includes. destruct (indexOf pat s); split; congruence. Qed.

(** [String.length s] rounds of [split_loop] are enough: more fuel changes
    nothing. *)
Lemma split_loop_fuel (sep : string) (n m : nat) (s : string) :
  sep <> "" -> String.length s <= n -> String.length s <= m ->
  split_loop n sep s = split_loop m sep s.
Proof.
  intros Hsep. revert m s; induction n as [|n IH]; intros m s Hn Hm.
  - destruct s; [|simpl in Hn; lia].
    destruct m; cbn [split_loop]; [reflexivity|]. now rewrite indexOf_empty.
  - destruct m as [|m].
    + destruct s; [|simpl in Hm; lia]. cbn [split_loop]. now rewrite indexOf_empty.
    + cbn [split_loop]. destruct (indexOf sep s) as [i|] eqn:E; [|reflexivity].
      f_equal. apply indexOf_Some in E as [_ L].
      assert (0 < String.length sep) by (destruct sep; [contradiction | simpl; lia]).
      apply IH; rewrite length_drop; lia.
Qed.

(** The equation [split] satisfies for a non-empty separator. *)
Lemma split_unfold (sep s : string) :
  sep <> "" ->
  split sep s =
  match indexOf sep s with
  | None => [s]
  | Some i => take i s :: split sep (drop (i + String.length sep) s)
  end.
Proof.
  intros Hsep. unfold split. destruct sep as [|a sep]; [contradiction|].
  set (p := String a sep) in *.
  destruct (String.length s) as [|n] eqn:L.
  - destruct s; [|discriminate]. cbn [split_loop]. now rewrite indexOf_empty.
  - cbn [split_loop]. destruct (indexOf p s) as [i|] eqn:E; [|reflexivity].
    f_equal. apply indexOf_Some in E as [_ B].
    apply split_loop_fuel; [assumption| |lia].
    rewrite length_drop. subst p. simpl in *. lia.
Qed.

Lemma split_not_nil (sep s : string) : sep <> "" -> split sep s <> [].
Proof.
  intros H. rewrite split_unfold by assumption.
  destruct (indexOf sep s); discriminate.
Qed.

(** Without an occurrence of the separator the string is returned whole. *)
Lemma split_none (sep s : string) :
  sep <> "" -> includes sep s = false -> split sep s = [s].
Proof.
  intros H E. rewrite split_unfold by assumption.
  apply includes_false in E. now rewrite E.
Qed.

(** Joining the pieces with the separator gives the string back. *)
Lemma join_split (sep s : string) : sep <> "" -> join sep (split sep s) = s.
Proof.
  intros Hsep.
  remember (String.length s) as n eqn:Hn.
  assert (Hle : String.length s <= n) by lia. clear Hn.
  revert s Hle; induction n as [|n IH]; intros s Hle;
    rewrite split_unfold by assumption;
    destruct (indexOf sep s) as [i|] eqn:E; try reflexivity.
  - apply indexOf_Some in E as [_ B].
    destruct sep; [contradiction | simpl in B; lia].
  - pose proof (indexOf_Some _ _ _ E) as [D B].
    assert (0 < String.length sep) by (destruct sep; [contradiction | simpl; lia]).
    specialize (IH (drop (i + String.length sep) s)).
    rewrite length_drop in IH. specialize (IH ltac:(lia)).
    pose proof (split_not_nil sep (drop (i + String.length sep) s) Hsep) as NN.
    destruct (split sep (drop (i + String.length sep) s)) as [|q r] eqn:Q;
      [contradiction|].
    change (join sep (take i s :: q :: r))
      with (take i s +:+ sep +:+ join sep (q :: r)).
    rewrite IH. now rewrite <- D.
Qed.

Lemma trimEnd_blank (s : string) : trimEnd s = "" <-> blank s = true.
Proof.
  induction s as [|c s IH]; simpl; [tauto|].
  destruct (trimEnd s) eqn:T.
  - assert (B : blank s = true) by now apply IH.
    rewrite B, andb_true_r. destruct (isWhiteSpace c); split; congruence.
  - assert (B : blank s = false).
    { destruct (blank s); [|reflexivity]. now destruct IH as [_ IH]; specialize (IH eq_refl). }
    rewrite B, andb_false_r. split; discriminate.
Qed.

Lemma blank_trimStart (s : string) : blank (trimStart s) = blank s.
Proof.
  induction s as [|c s IH]; simpl; [reflexivity|].
  destruct (isWhiteSpace c) eqn:W; simpl; [assumption | now rewrite W].
Qed.

(** [trim] returns the empty string exactly on white space. *)
Lemma trim_blank (s : string) : trim s = "" <-> blank s = true.
Proof. unfold trim. now rewrite trimEnd_blank, blank_trimStart. Qed.

Lemma blank_append (a b : string) : blank (a +:+ b) = blank a && blank b.
Proof.
  induction a as [|c a IH]; [reflexivity|].
  rewrite append_cons. simpl. now rewrite IH, andb_assoc.
Qed.

(** A string in which a pattern that is not white space occurs is not
    blank. *)
Lemma includes_not_blank (pat s : string) :
  blank pat = false -> includes pat s = true -> blank s = false.
Proof.
  intros B [i E]%includes_indexOf.
  apply indexOf_Some in E as [-> _].
  now rewrite !blank_append, B, andb_false_r.
Qed.

End JSFacts.

(** ** The text parser *)

Module ParserFacts.
Import JS JSFacts Parser.

Lemma sep_name_nonempty : " / " <> "".
Proof. discriminate. Qed.

Lemma colon_nonempty : ":" <> "".
Proof. discriminate. Qed.

Lemma LF_nonempty : LF <> "".
Proof. discriminate. Qed.

(** The two worked examples of the specification. *)
Example parse_labeled_example :
  parseFields ("Name: Jane / Smith" +:+ LF +:+ "Age: 41yrs old" +:+ LF +:+ "Loc: NY")
  = mkFields "Smith" "41" "NY" "" "".
Proof. reflexivity. Qed.

Example parse_positional_example :
  parseFields ("John Doe" +:+ LF +:+ "35" +:+ LF +:+ "LA" +:+ LF +:+ "Engineer"
                 +:+ LF +:+ "TanTan")
  = mkFields "John Doe" "35" "LA" "Engineer" "TanTan".
Proof. reflexivity. Qed.

(** Under the guard of [cleanName], element 1 of the split exists. *)
Lemma cleanName_index_defined (nameText : string) :
  includes " / " nameText = true ->
  exists real, nth_error (split " / " nameText) 1 = Some real.
Proof.
  intros [i E]%includes_indexOf.
  rewrite split_unfold, E by apply sep_name_nonempty.
  rewrite split_unfold by apply sep_name_nonempty.
  destruct (indexOf " / " (drop _ nameText)); simpl; eauto.
Qed.

(** A labeled line is cut at its first colon: the key is the text before
    it, the value the trimmed text after it. *)
Lemma split_colon (line : string) (i : nat) :
  indexOf ":" line = Some i ->
  exists valueParts,
    split ":" line = take i line :: valueParts
    /\ join ":" valueParts = drop (i + 1) line.
Proof.
  intros E. rewrite split_unfold, E by apply colon_nonempty.
  eexists; split; [reflexivity|].
  apply join_split, colon_nonempty.
Qed.

(** [assignLine] writes the field [labelOf] names with [assignedValue]. *)
Lemma assignLine_label (f : Fields) (line : string) :
  assignLine f line =
  match labelOf line with
  | Some l => assign l (assignedValue line) f
  | None => f
  end.
Proof.
  unfold assignedValue, labelOf, assignLine, keyLowerOf, valueOf.
  pose proof (split_not_nil ":" line colon_nonempty) as NN.
  destruct (split ":" line) as [|key valueParts]; [contradiction|].
  destruct (includes ":" line); cbn [negb nth tl]; [|reflexivity].
  destruct (includes "name" _); [reflexivity|].
  destruct (includes "age" _); [reflexivity|].
  destruct (includes "loc" _); [reflexivity|].
  destruct (includes "work" _ || includes "occupation" _); [reflexivity|].
  destruct (includes "app" _); reflexivity.
Qed.

Lemma assign_comm (l1 l2 : Label) (v1 v2 : string) (f : Fields) :
  (l1 = l2 -> v1 = v2) ->
  assign l2 v2 (assign l1 v1 f) = assign l1 v1 (assign l2 v2 f).
Proof.
  intros H. destruct l1, l2; try reflexivity;
    now rewrite (H eq_refl).
Qed.

(** A left fold is insensitive to the order of its list when the steps of
    any two of its elements commute. *)
Lemma fold_left_Permutation {A B : Type} (step : A -> B -> A) (l l' : list B) :
  Permutation l l' ->
  (forall x y a, In x l -> In y l -> step (step a x) y = step (step a y) x) ->
  forall a, fold_left step l a = fold_left step l' a.
Proof.
  induction 1 as [|x l l' P IH|x y l|l l' l'' P1 IH1 P2 IH2]; intros C a.
  - reflexivity.
  - simpl. apply IH. intros; apply C; now right.
  - simpl. rewrite (C y x a); [reflexivity| now left | now right; left].
  - rewrite IH1 by assumption. apply IH2.
    intros u v b Hu Hv.
    apply C; eapply Permutation_in; try eassumption; now apply Permutation_sym.
Qed.

Lemma filter_Permutation {A : Type} (p : A -> bool) (l l' : list A) :
  Permutation l l' -> Permutation (List.filter p l) (List.filter p l').
Proof.
  induction 1 as [|x l l' P IH|x y l|l l' l'' P1 IH1 P2 IH2]; simpl.
  - constructor.
  - destruct (p x); [now constructor | assumption].
  - destruct (p x), (p y); try reflexivity. constructor.
  - now transitivity (List.filter p l').
Qed.

Lemma existsb_Permutation {A : Type} (p : A -> bool) (l l' : list A) :
  Permutation l l' -> existsb p l = existsb p l'.
Proof.
  intros P. apply eq_true_iff_eq. rewrite !existsb_exists.
  split; intros (x & I & H); exists x; split; try assumption;
    eapply Permutation_in; try eassumption. now apply Permutation_sym.
Qed.

(** The block is read as labeled exactly when one of its lines contains a
    colon: such a line is never dropped as empty. *)
Lemma hasLabels_iff (text : string) :
  hasLabels (nonEmptyLines text) = true
  <-> exists line, In line (split LF text) /\ includes ":" line = true.
Proof.
  unfold hasLabels, nonEmptyLines. rewrite existsb_exists. split.
  - intros (line & [I _]%filter_In & C). eauto.
  - intros (line & I & C). exists line. split; [|assumption].
    apply filter_In. split; [assumption|].
    apply negb_true_iff, String.eqb_neq. intros T%trim_blank.
    now rewrite (includes_not_blank ":" line eq_refl C) in T.
Qed.

(** Without a line feed and without a colon, at most one line is read and
    no label is seen. *)
Lemma single_line_fields (text : string) :
  includes LF text = false -> includes ":" text = false ->
  parseFields text = initial.
Proof.
  intros N C. unfold parseFields, nonEmptyLines.
  rewrite (split_none LF text LF_nonempty N). cbn [List.filter].
  destruct (negb _); cbn [hasLabels existsb]; [rewrite C|]; reflexivity.
Qed.


(** *** Name post-processing *)

(** C1, as stated, fails: with two separators the name is the text between
    them, not everything after the first one. *)
Lemma cleanName_keeps_rest_counterexample :
  includes " / " "jdoe / Jane / Smith" = true
  /\ indexOf " / " "jdoe / Jane / Smith" = Some 4
  /\ cleanName "jdoe / Jane / Smith" = "Jane"
  /\ trim (drop (4 + 3) "jdoe / Jane / Smith") = "Jane / Smith"
  /\ cleanName "jdoe / Jane / Smith" <> trim (drop (4 + 3) "jdoe / Jane / Smith").
Proof. repeat split; try reflexivity. discriminate. Qed.

(** C1, amended: when the name value contains the separator " / ", first at
    position [i], the resulting name is the trimmed text between that
    separator and the next occurrence of " / " in what follows; it is the
    entire trimmed text after the separator when no further separator
    follows. *)
Theorem cleanName_second_segment (nameText : string) (i : nat) :
  indexOf " / " nameText = Some i ->
  let rest := drop (i + 3) nameText in
  cleanName nameText =
  trim (match indexOf " / " rest with
        | Some j => take j rest
        | None => rest
        end).
Proof.
  intros E rest. unfold cleanName.
  assert (I : includes " / " nameText = true) by (apply includes_indexOf; eauto).
  rewrite I, split_unfold, E by apply sep_name_nonempty.
  change (i + String.length " / ") with (i + 3). fold rest.
  rewrite (split_unfold " / " rest) by apply sep_name_nonempty.
  destruct (indexOf " / " rest); reflexivity.
Qed.

Lemma cleanName_second_segment_witness :
  indexOf " / " "jdoe / Jane Smith " = Some 4
  /\ cleanName "jdoe / Jane Smith " = "Jane Smith".
Proof.
  split; [reflexivity|].
  exact (cleanName_second_segment "jdoe / Jane Smith " 4 eq_refl).
Defined.

(** *** Labeled mode *)

(** C8: a labeled line, cut at its first colon, is assigned to exactly one
    field, chosen by the fixed priority name, age, "loc", "work" or
    "occupation", "app" among the label substrings its lower-cased key
    contains; a key with none of them changes nothing. *)
Theorem label_priority (f : Fields) (line : string) (i : nat) :
  indexOf ":" line = Some i ->
  let key := toLowerCase (trim (take i line)) in
  let value := trim (drop (i + 1) line) in
  (includes "name" key = true ->
     assignLine f line =
     mkFields (cleanName value) (age f) (location f) (work f) (application f))
  /\ (includes "name" key = false -> includes "age" key = true ->
     assignLine f line =
     mkFields (name f) (extractAge value) (location f) (work f) (application f))
  /\ (includes "name" key = false -> includes "age" key = false ->
     includes "loc" key = true ->
     assignLine f line =
     mkFields (name f) (age f) value (work f) (application f))
  /\ (includes "name" key = false -> includes "age" key = false ->
     includes "loc" key = false ->
     includes "work" key = true \/ includes "occupation" key = true ->
     assignLine f line =
     mkFields (name f) (age f) (location f) value (application f))
  /\ (includes "name" key = false -> includes "age" key = false ->
     includes "loc" key = false ->
     includes "work" key = false -> includes "occupation" key = false ->
     includes "app" key = true ->
     assignLine f line =
     mkFields (name f) (age f) (location f) (work f) value)
  /\ (includes "name" key = false -> includes "age" key = false ->
     includes "loc" key = false ->
     includes "work" key = false -> includes "occupation" key = false ->
     includes "app" key = false ->
     assignLine f line = f).
Proof.
  intros E key value.
  destruct (split_colon line i E) as (valueParts & S & J).
  assert (I : includes ":" line = true) by (apply includes_indexOf; eauto).
  unfold assignLine. rewrite I, S, J. cbn [negb]. fold key value.
  repeat split.
  - now intros ->.
  - now intros -> ->.
  - now intros -> -> ->.
  - intros -> -> -> [-> | ->]; [reflexivity | now rewrite orb_true_r].
  - now intros -> -> -> -> -> ->.
  - now intros -> -> -> -> -> ->.
Qed.

Lemma label_priority_witness :
  indexOf ":" "App Name: Tinder / Ann" = Some 8
  /\ includes "app" (toLowerCase (trim (take 8 "App Name: Tinder / Ann"))) = true
  /\ assignLine initial "App Name: Tinder / Ann" = mkFields "Ann" "" "" "" "".
Proof.
  split; [reflexivity|]. split; [reflexivity|].
  exact (proj1 (label_priority initial "App Name: Tinder / Ann" 8 eq_refl) eq_refl).
Defined.

(** C2, as stated, fails: two lines labeled for the same field are applied
    in order, the later one wins, so swapping them changes the record. *)
Lemma labeled_order_counterexample :
  let t1 := "Name: Ann" +:+ LF +:+ "Age: 30" +:+ LF +:+ "Name: Bea" in
  let t2 := "Name: Bea" +:+ LF +:+ "Age: 30" +:+ LF +:+ "Name: Ann" in
  Permutation (split LF t1) (split LF t2)
  /\ (exists line, In line (split LF t1) /\ includes ":" line = true)
  /\ parseFields t1 = mkFields "Bea" "30" "" "" ""
  /\ parseFields t2 = mkFields "Ann" "30" "" "" ""
  /\ parseFields t1 <> parseFields t2.
Proof.
  cbv zeta. split; [|split; [|split; [|split]]]; try reflexivity.
  - change (Permutation ["Name: Ann"; "Age: 30"; "Name: Bea"]
                        ["Name: Bea"; "Age: 30"; "Name: Ann"]).
    apply Permutation_sym.
    etransitivity; [apply perm_swap|]. etransitivity; [apply perm_skip, perm_swap|].
    etransitivity; [apply perm_swap|]. reflexivity.
  - exists "Name: Ann". split; [left|]; reflexivity.
  - discriminate.
Qed.

(** C2, amended: for a labeled block in which any two lines matched to the
    same field give that field the same value (in particular when every
    field is labeled at most once), parsing any permutation of its lines
    yields the same parsed record. *)
Theorem labeled_order_independent (t1 t2 : string) :
  Permutation (split LF t1) (split LF t2) ->
  (exists line, In line (split LF t1) /\ includes ":" line = true) ->
  (forall line1 line2 l,
     In line1 (split LF t1) -> In line2 (split LF t1) ->
     labelOf line1 = Some l -> labelOf line2 = Some l ->
     assignedValue line1 = assignedValue line2) ->
  parseFields t1 = parseFields t2.
Proof.
  intros P L%hasLabels_iff Same. unfold parseFields.
  assert (PF : Permutation (nonEmptyLines t1) (nonEmptyLines t2))
    by now apply filter_Permutation.
  rewrite <- (existsb_Permutation _ _ _ PF : hasLabels _ = hasLabels _), L.
  unfold parseLabeled. apply fold_left_Permutation; [assumption|].
  intros x y a [Ix _]%filter_In [Iy _]%filter_In.
  rewrite !assignLine_label.
  destruct (labelOf x) as [lx|] eqn:Lx, (labelOf y) as [ly|] eqn:Ly;
    try reflexivity.
  apply assign_comm. intros <-. eapply Same; eassumption.
Qed.

Lemma labeled_order_independent_witness :
  parseFields ("Name: Ann" +:+ LF +:+ "Age: 30" +:+ LF +:+ "Loc: NY")
  = parseFields ("Loc: NY" +:+ LF +:+ "Name: Ann" +:+ LF +:+ "Age: 30").
Proof.
  apply labeled_order_independent.
  - change (Permutation ["Name: Ann"; "Age: 30"; "Loc: NY"]
                        ["Loc: NY"; "Name: Ann"; "Age: 30"]).
    apply Permutation_sym, (Permutation_cons_append ["Name: Ann"; "Age: 30"] "Loc: NY").
  - exists "Name: Ann". split; [left|]; reflexivity.
  - intros line1 line2 l I1 I2.
    change (In line1 ["Name: Ann"; "Age: 30"; "Loc: NY"]) in I1.
    change (In line2 ["Name: Ann"; "Age: 30"; "Loc: NY"]) in I2.
    destruct I1 as [<-|[<-|[<-|[]]]], I2 as [<-|[<-|[<-|[]]]];
      vm_compute; congruence.
Defined.

End ParserFacts.

(** ** The dashboard *)

Module DashboardFacts.
Import JS JSFacts Dashboard.

(** *** Parser action *)

(** A successful paste without a session: the record is appended to the
    in-memory list and to the fallback store, optional fields defaulted. *)
Example processClientInfo_creates :
  let env := mkEnv "2024-01-02" "1704153600000" "doc1" false (fun s => s) in
  let st := mkState ("Name: Jane / Smith" +:+ LF +:+ "Age: 41yrs old" +:+ LF +:+ "Loc: NY")
                    [] None false None [] [] in
  let created := mkClient "1704153600000" "Smith" "41" "NY" "Unknown" "Unknown" ""
                          "2024-01-02" (Some ServerTimestamp) (Some ServerTimestamp) in
  processClientInfo env st
  = mkState "" [created] None false (Some [created]) []
            [notice "Success" "Client Smith has been added and assigned to "].
Proof. reflexivity. Qed.

(** C7: on the empty string, and on any single line without a colon, the
    parser action fails validation: name (and age) are empty after
    processing, an error toast is shown, and no record is created, neither
    in the in-memory list, nor in the fallback store, nor remotely; the
    input is left in place.  The empty (or blank) input is reported by the
    guard on the input, a non-blank line by the check of the required
    fields. *)
Theorem insufficient_input_rejected (env : Env) (st : State) :
  includes LF (clientText st) = false ->
  includes ":" (clientText st) = false ->
  let st' := processClientInfo env st in
  Parser.missingRequired (Parser.parseFields (clientText st)) = true
  /\ Parser.name (Parser.parseFields (clientText st)) = ""
  /\ Parser.age (Parser.parseFields (clientText st)) = ""
  /\ clients st' = clients st
  /\ localStorage st' = localStorage st
  /\ remote st' = remote st
  /\ clientText st' = clientText st
  /\ toasts st' =
     toasts st ++
     [destructive "Error"
        (if truthy (trim (clientText st))
         then "Name and age are required"
         else "Please enter client information")].
Proof.
  intros N C st'. subst st'. unfold processClientInfo.
  rewrite (ParserFacts.single_line_fields _ N C).
  repeat split; destruct (truthy (trim (clientText st))); reflexivity.
Qed.

Lemma insufficient_input_rejected_witness :
  (toasts (processClientInfo
             (mkEnv "2024-01-02" "1704153600000" "doc1" false (fun s => s))
             (mkState "OnlyOneLine" [] None false None [] []))
   = [destructive "Error" "Name and age are required"]
   /\ clients (processClientInfo
                 (mkEnv "2024-01-02" "1704153600000" "doc1" false (fun s => s))
                 (mkState "OnlyOneLine" [] None false None [] []))
      = [])
  /\ (toasts (processClientInfo
                (mkEnv "2024-01-02" "1704153600000" "doc1" false (fun s => s))
                (mkState "" [] None false None [] []))
      = [destructive "Error" "Please enter client information"]
      /\ clients (processClientInfo
                    (mkEnv "2024-01-02" "1704153600000" "doc1" false (fun s => s))
                    (mkState "" [] None false None [] []))
         = []).
Proof.
  split.
  - destruct (insufficient_input_rejected
                (mkEnv "2024-01-02" "1704153600000" "doc1" false (fun s => s))
                (mkState "OnlyOneLine" [] None false None [] [])
                eq_refl eq_refl)
      as (_ & _ & _ & Hc & _ & _ & _ & Ht).
    split; [exact Ht | exact Hc].
  - destruct (insufficient_input_rejected
                (mkEnv "2024-01-02" "1704153600000" "doc1" false (fun s => s))
                (mkState "" [] None false None [] [])
                eq_refl eq_refl)
      as (_ & _ & _ & Hc & _ & _ & _ & Ht).
    split; [exact Ht | exact Hc].
Defined.

(** *** Filter effect *)

(** C5: with an empty search query and the four sentinel values the filter
    effect hands the input list on unchanged. *)
Theorem filter_sentinels_identity (newDate : string -> Date) (currentDate : Date)
    (clients : list ClientAssignment) :
  filteredClients newDate currentDate clients
    "" "all-locations" "all-applications" "all-agents" "all-months"
  = clients.
Proof.
  unfold filteredClients.
  change (truthy "") with false.
  change (negb ("all-locations" =? "all-locations")%string) with false.
  change (negb ("all-applications" =? "all-applications")%string) with false.
  change (negb ("all-agents" =? "all-agents")%string) with false.
  change (negb ("all-months" =? "all-months")%string) with false.
  reflexivity.
Qed.

Lemma strictEq_Some (a : number) (z : Z) : strictEq a (Some z) = true <-> a = Some z.
Proof.
  destruct a as [x|]; simpl; [|split; discriminate].
  rewrite Z.eqb_eq. split; congruence.
Qed.

(** In January the "previous" month is December of the year before. *)
Lemma matchesMonth_previous_january (newDate : string -> Date) (currentDate : Date)
    (Y : Z) (client : ClientAssignment) :
  getMonth currentDate = Some 0%Z ->
  getFullYear currentDate = Some Y ->
  matchesMonth newDate currentDate "previous" client = true
  <-> getMonth (newDate (date client)) = Some 11%Z
      /\ getFullYear (newDate (date client)) = Some (Y - 1)%Z.
Proof.
  intros M F. unfold matchesMonth. simpl. rewrite M, F. simpl.
  now rewrite andb_true_iff, !strictEq_Some.
Qed.

(** The year wrap of "previous", for any reading of dates: when the current
    date falls in January of year [Y], the filter keeps, among the records
    the other filters let through, exactly those whose [Date] object reads
    December of year [Y - 1]. *)
Theorem previous_month_wraps_year (newDate : string -> Date) (currentDate : Date)
    (Y : Z) (clients : list ClientAssignment)
    (searchQuery locationFilter applicationFilter agentFilter : string)
    (client : ClientAssignment) :
  getMonth currentDate = Some 0%Z ->
  getFullYear currentDate = Some Y ->
  In client (filteredClients newDate currentDate clients
               searchQuery locationFilter applicationFilter agentFilter "previous")
  <-> In client (filteredClients newDate currentDate clients
                   searchQuery locationFilter applicationFilter agentFilter "all-months")
      /\ getMonth (newDate (date client)) = Some 11%Z
      /\ getFullYear (newDate (date client)) = Some (Y - 1)%Z.
Proof.
  intros M F. unfold filteredClients.
  change (negb ("previous" =? "all-months")%string) with true.
  change (negb ("all-months" =? "all-months")%string) with false.
  cbv iota. rewrite filter_In.
  now rewrite (matchesMonth_previous_january newDate currentDate Y client M F).
Qed.

Lemma previous_month_wraps_year_witness :
  In (mkClient "1" "Ann" "30" "NY" "Unknown" "Unknown" "Kel" "2023-12-15" None None)
     (filteredClients
        (fun s => if String.eqb s "2023-12-15" then LocalDate 2023 11 else InvalidDate)
        (LocalDate 2024 0)
        [mkClient "1" "Ann" "30" "NY" "Unknown" "Unknown" "Kel" "2023-12-15" None None]
        "" "all-locations" "all-applications" "all-agents" "previous").
Proof.
  apply (proj2 (previous_month_wraps_year
                  (fun s => if String.eqb s "2023-12-15" then LocalDate 2023 11 else InvalidDate)
                  (LocalDate 2024 0) 2024
                  [mkClient "1" "Ann" "30" "NY" "Unknown" "Unknown" "Kel" "2023-12-15" None None]
                  "" "all-locations" "all-applications" "all-agents"
                  (mkClient "1" "Ann" "30" "NY" "Unknown" "Unknown" "Kel" "2023-12-15" None None)
                  eq_refl eq_refl)).
  split; [left; reflexivity | split; reflexivity].
Defined.

(** *** Delete handler *)

(** C6: without the administrator capability, delete changes neither the
    in-memory collection nor the fallback store nor the remote collection,
    whatever the record id, and reports "Permission Denied". *)
Theorem delete_requires_admin (env : Env) (clientId : string) (st : State) :
  isAdmin st = false ->
  let st' := handleDeleteClient env clientId st in
  clients st' = clients st
  /\ localStorage st' = localStorage st
  /\ remote st' = remote st
  /\ clientText st' = clientText st
  /\ user st' = user st
  /\ isAdmin st' = isAdmin st
  /\ toasts st' =
     toasts st ++
     [destructive "Permission Denied" "Only administrators can delete client records"].
Proof.
  intros A st'. subst st'. unfold handleDeleteClient. rewrite A.
  cbn [negb]. repeat split; try reflexivity. exact A.
Qed.

Lemma delete_requires_admin_witness :
  clients (handleDeleteClient
             (mkEnv "2024-01-02" "1704153600000" "doc1" false (fun s => s)) "1"
             (mkState "" [mkClient "1" "Ann" "30" "NY" "Unknown" "Unknown" "Kel" "2023-12-15" None None]
                      None false
                      (Some [mkClient "1" "Ann" "30" "NY" "Unknown" "Unknown" "Kel" "2023-12-15" None None])
                      [] []))
  = [mkClient "1" "Ann" "30" "NY" "Unknown" "Unknown" "Kel" "2023-12-15" None None].
Proof.
  exact (proj1 (delete_requires_admin
                  (mkEnv "2024-01-02" "1704153600000" "doc1" false (fun s => s)) "1"
                  (mkState "" [mkClient "1" "Ann" "30" "NY" "Unknown" "Unknown" "Kel" "2023-12-15" None None]
                           None false
                           (Some [mkClient "1" "Ann" "30" "NY" "Unknown" "Unknown" "Kel" "2023-12-15" None None])
                           [] [])
                  eq_refl)).
Defined.

(** *** Administrator capability *)

Lemma arrayIncludes_In (l : list string) (x : string) :
  arrayIncludes l x = true <-> In x l.
Proof.
  unfold arrayIncludes. rewrite existsb_exists. split.
  - intros (y & I & E). apply String.eqb_eq in E. now subst.
  - intros I. exists x. split; [assumption | apply String.eqb_refl].
Qed.

(** C10: after the administrator effect has run, a signed-in user holds the
    administrator capability exactly when their email is one of the two
    listed addresses or contains "admin"; without a user the capability is
    never held; and the capability is what the delete handler asks for. *)
Theorem admin_derivation (st : State) :
  (forall u, user st = Some u ->
     (isAdmin (adminEffect st) = true
      <-> exists e, email u = Some e
                    /\ (In e ["admin@example.com"; "manager@example.com"]
                        \/ includes "admin" e = true)))
  /\ (user st = None -> isAdmin (adminEffect st) = false)
  /\ (forall env clientId,
       isAdmin (adminEffect st) = false ->
       handleDeleteClient env clientId (adminEffect st)
       = toast (destructive "Permission Denied"
                  "Only administrators can delete client records") (adminEffect st)).
Proof.
  split; [|split].
  - intros u U. unfold adminEffect. rewrite U. cbn [isAdmin setIsAdmin].
    rewrite orb_false_r, orb_true_iff, arrayIncludes_In.
    destruct (email u) as [e|]; split.
    + intros [I | I]; exists e; split; auto.
      left. unfold orElse in I. destruct (truthy e); [assumption|].
      simpl in I. intuition discriminate.
    + intros (e' & [= <-] & [I | I]); [left | now right].
      unfold orElse. destruct e; [|assumption].
      simpl in I. intuition discriminate.
    + intros [I | I]; [|discriminate]. simpl in I. intuition discriminate.
    + intros (e & [=] & _).
  - intros U. unfold adminEffect. now rewrite U.
  - intros env clientId A. unfold handleDeleteClient. now rewrite A.
Qed.

Lemma admin_derivation_witness :
  isAdmin (adminEffect (mkState "" [] (Some (mkUser (Some "sysadmin@corp.test")))
                                false None [] [])) = true
  /\ isAdmin (adminEffect (mkState "" [] (Some (mkUser (Some "manager@example.com")))
                                   false None [] [])) = true
  /\ isAdmin (adminEffect (mkState "" [] None true None [] [])) = false.
Proof.
  split; [|split].
  - apply (proj1 (admin_derivation
                    (mkState "" [] (Some (mkUser (Some "sysadmin@corp.test")))
                             false None [] []))
                 (mkUser (Some "sysadmin@corp.test")) eq_refl).
    exists "sysadmin@corp.test". split; [reflexivity | right; reflexivity].
  - apply (proj1 (admin_derivation
                    (mkState "" [] (Some (mkUser (Some "manager@example.com")))
                             false None [] []))
                 (mkUser (Some "manager@example.com")) eq_refl).
    exists "manager@example.com". split; [reflexivity | left; right; left; reflexivity].
  - exact (proj1 (proj2 (admin_derivation (mkState "" [] None true None [] []))) eq_refl).
Defined.

End DashboardFacts.

(** ** GET /clients *)

Module RouteFacts.
Import Store Route.

(** A property of the spread source wins over the one written before it. *)
Lemma spread_lookup_src (src target : obj) (k : string) (v : value) :
  src !! k = Some v -> spread src target !! k = Some v.
Proof. intros H. unfold spread. now apply lookup_union_Some_l. Qed.

Lemma spread_lookup_target (src target : obj) (k : string) :
  src !! k = None -> spread src target !! k = target !! k.
Proof. intros H. unfold spread. now apply lookup_union_r. Qed.

(** C9: for a signed-in caller and a successful read, the object returned
    for a document whose data has an [id] field carries that field's value
    as [id], in place of the document's key. *)
Theorem GET_id_shadowed {U : Type} (u : U) (docs : list QueryDocumentSnapshot)
    (i : nat) (doc : QueryDocumentSnapshot) (v : value) :
  nth_error docs i = Some doc ->
  data doc !! "id" = Some v ->
  exists items client,
    GET (Some u) (Some docs) = mkResponse 200 (Clients items)
    /\ nth_error items i = Some client
    /\ client !! "id" = Some v.
Proof.
  intros D V. exists (map toClient docs), (toClient doc).
  split; [reflexivity|]. split.
  - now rewrite nth_error_map, D.
  - now apply spread_lookup_src.
Qed.

(** Without an [id] field in the data, the document's key is returned. *)
Lemma GET_id_default (doc : QueryDocumentSnapshot) :
  data doc !! "id" = None -> toClient doc !! "id" = Some (VStr (id doc)).
Proof.
  intros N. unfold toClient. rewrite spread_lookup_target by assumption.
  unfold literal. simpl. apply lookup_insert_eq.
Qed.

Lemma GET_id_shadowed_witness :
  exists items client,
    GET (Some tt) (Some [mkDoc "k1" (literal [("id", VStr "legacy-7"); ("clientName", VStr "Ann")])])
    = mkResponse 200 (Clients items)
    /\ nth_error items 0 = Some client
    /\ client !! "id" = Some (VStr "legacy-7").
Proof.
  apply (GET_id_shadowed tt
           [mkDoc "k1" (literal [("id", VStr "legacy-7"); ("clientName", VStr "Ann")])]
           0
           (mkDoc "k1" (literal [("id", VStr "legacy-7"); ("clientName", VStr "Ann")]))
           (VStr "legacy-7") eq_refl).
  vm_compute. reflexivity.
Defined.

End RouteFacts.

(** ** Migration *)

Module MigrateFacts.
Import Store Migrate.

Section Inserted.

Variable accepts : string -> obj -> bool.

(** Every write of a loop is the image of one of its items. *)
Lemma insertAll_inv (P : string * obj -> Prop) (coll : string) (build : obj -> obj)
    (items : list obj) (db : Writes) :
  (forall e, In e db -> P e) ->
  (forall x, In x items -> P (coll, build x)) ->
  forall e, In e (fst (insertAll accepts coll build items db)) -> P e.
Proof.
  revert db; induction items as [|x items IH]; intros db Hdb Hit; simpl.
  - assumption.
  - destruct (accepts coll (build x)); [|assumption].
    apply IH.
    + intros e [I | [<- | []]]%in_app_or; [now apply Hdb | apply Hit; now left].
    + intros y I. apply Hit. now right.
Qed.

Lemma andThen_inv (P : string * obj -> Prop) (r : Writes * bool)
    (k : Writes -> Writes * bool) :
  (forall e, In e (fst r) -> P e) ->
  (forall db, (forall e, In e db -> P e) -> forall e, In e (fst (k db)) -> P e) ->
  forall e, In e (fst (andThen r k)) -> P e.
Proof.
  intros Hr Hk. unfold andThen. destruct (snd r); [now apply Hk | assumption].
Qed.

Lemma migrateData_origin (ls : Storage) (e : string * obj) :
  In e (fst (migrateData accepts ls [])) -> origin ls e.
Proof.
  unfold migrateData.
  apply andThen_inv.
  { apply insertAll_inv; [intros ? [] | intros x I; left; eauto]. }
  intros db1 H1. apply andThen_inv.
  { apply insertAll_inv; [assumption | intros x I; right; left; eauto]. }
  intros db2 H2. apply andThen_inv.
  { apply insertAll_inv; [assumption | intros x I; do 2 right; left; eauto]. }
  intros db3 H3. apply andThen_inv.
  { apply insertAll_inv; [assumption | intros x I; do 3 right; left; eauto]. }
  intros db4 H4.
  apply insertAll_inv; [assumption | intros x I; do 4 right; eauto].
Qed.

End Inserted.

(** When the remote store accepts every write, each loop inserts one
    document per item, in order, and the migration completes. *)
Lemma insertAll_accepted (coll : string) (build : obj -> obj) (items : list obj)
    (db : Writes) :
  insertAll (fun _ _ => true) coll build items db
  = (db ++ map (fun x => (coll, build x)) items, true).
Proof.
  revert db; induction items as [|x items IH]; intros db; simpl.
  - now rewrite app_nil_r.
  - now rewrite IH, <- app_assoc.
Qed.

Lemma migrateData_accepted (ls : Storage) :
  migrateData (fun _ _ => true) ls []
  = (map (fun x => ("clients", clientDoc x)) (getItems ls "clients")
     ++ map (fun x => ("orders", orderDoc x)) (getItems ls "orders")
     ++ map (fun x => ("deposits", depositDoc x)) (getItems ls "deposits")
     ++ map (fun x => ("withdrawals", withdrawalDoc x)) (getItems ls "withdrawals")
     ++ map (fun x => ("orderRequests", orderRequestDoc x)) (getItems ls "orderRequests"),
     true).
Proof.
  unfold migrateData, andThen.
  repeat (rewrite insertAll_accepted; cbn [fst snd app]).
  now rewrite <- !app_assoc.
Qed.

(** C3, as stated, fails, also for records with every field present and a
    store that refuses undefined values: an order request is inserted with
    [createdAt] built from the stored record's own [createdAt], not with a
    server timestamp; and a client record, which has no date, is inserted
    without a [date] field rather than with the current time. *)
Lemma migration_createdAt_counterexample :
  let request :=
    literal [("shopId", VStr "S1"); ("clientName", VStr "Ann"); ("agent", VStr "Kel");
             ("date", VStr "2024-03-01"); ("location", VStr "NY"); ("price", VStr "120");
             ("status", VStr "Pending"); ("remarks", VStr "rush");
             ("createdAt", VStr "2024-03-01T10:00:00Z")] in
  let client :=
    literal [("shopId", VStr "S1"); ("clientName", VStr "Ann"); ("agent", VStr "Kel");
             ("kycDate", VStr "2024-02-01"); ("status", VStr "Active");
             ("notes", VStr "vip")] in
  let ls : Storage := {[ "orderRequests" := [request]; "clients" := [client] ]} in
  migrateData refusesUndefined ls []
  = ([("clients", clientDoc client); ("orderRequests", orderRequestDoc request)], true)
  /\ orderRequestDoc request !! "createdAt" = Some (VDateOf (VStr "2024-03-01T10:00:00Z"))
  /\ orderRequestDoc request !! "createdAt" <> Some VServerTimestamp
  /\ client !! "date" = None
  /\ clientDoc client !! "date" = None
  /\ clientDoc client !! "date" <> Some VDateNow.
Proof.
  intros request client ls.
  split; [|split; [|split; [|split; [|split]]]].
  - vm_compute. reflexivity.
  - vm_compute. reflexivity.
  - vm_compute. discriminate.
  - vm_compute. reflexivity.
  - vm_compute. reflexivity.
  - vm_compute. discriminate.
Qed.

(** C3, amended: every document the migration inserts is built from a
    record of the matching stored array and has [updatedAt] set to the
    server timestamp; [createdAt] is the server timestamp in clients,
    orders, deposits and withdrawals, and the date built from the record's
    own [createdAt] in orderRequests; in orders, deposits, withdrawals and
    orderRequests a record whose [date] is absent (or otherwise falsy) is
    inserted with [date] set to the current time, any other with the date
    built from it; client documents carry no [date] field. *)
Theorem migration_timestamps (accepts : string -> obj -> bool) (ls : Storage)
    (coll : string) (doc : obj) :
  In (coll, doc) (fst (migrateData accepts ls [])) ->
  exists record,
    In record (getItems ls coll)
    /\ In coll ["clients"; "orders"; "deposits"; "withdrawals"; "orderRequests"]
    /\ doc !! "updatedAt" = Some VServerTimestamp
    /\ doc !! "createdAt" =
       Some (if String.eqb coll "orderRequests"
             then VDateOf (get record "createdAt")
             else VServerTimestamp)
    /\ doc !! "date" =
       (if String.eqb coll "clients" then None
        else Some (if truthy (get record "date")
                   then VDateOf (get record "date")
                   else VDateNow)).
Proof.
  intros I. apply migrateData_origin in I.
  destruct I as [I|[I|[I|[I|I]]]]; destruct I as (x & Ix & [= -> ->]);
    exists x; (split; [exact Ix|]); (split; [simpl; tauto|]);
    unfold clientDoc, orderDoc, depositDoc, withdrawalDoc, orderRequestDoc, literal;
    cbn [list_to_map foldr String.eqb Ascii.eqb Bool.eqb fst snd];
    repeat split; simplify_map_eq; reflexivity.
Qed.

Lemma migration_timestamps_witness :
  exists record,
    In record
       (getItems
          {[ "orders" :=
               [literal [("orderId", VStr "O1"); ("shopId", VStr "S1");
                         ("clientName", VStr "Ann"); ("agent", VStr "Kel");
                         ("location", VStr "NY"); ("price", VStr "120");
                         ("status", VStr "Pending")]] ]}
          "orders")
    /\ In "orders" ["clients"; "orders"; "deposits"; "withdrawals"; "orderRequests"]
    /\ orderDoc (literal [("orderId", VStr "O1"); ("shopId", VStr "S1");
                          ("clientName", VStr "Ann"); ("agent", VStr "Kel");
                          ("location", VStr "NY"); ("price", VStr "120");
                          ("status", VStr "Pending")]) !! "updatedAt"
       = Some VServerTimestamp
    /\ orderDoc (literal [("orderId", VStr "O1"); ("shopId", VStr "S1");
                          ("clientName", VStr "Ann"); ("agent", VStr "Kel");
                          ("location", VStr "NY"); ("price", VStr "120");
                          ("status", VStr "Pending")]) !! "createdAt"
       = Some (if String.eqb "orders" "orderRequests"
               then VDateOf (get record "createdAt")
               else VServerTimestamp)
    /\ orderDoc (literal [("orderId", VStr "O1"); ("shopId", VStr "S1");
                          ("clientName", VStr "Ann"); ("agent", VStr "Kel");
                          ("location", VStr "NY"); ("price", VStr "120");
                          ("status", VStr "Pending")]) !! "date"
       = (if String.eqb "orders" "clients" then None
          else Some (if truthy (get record "date")
                     then VDateOf (get record "date")
                     else VDateNow)).
Proof.
  apply (migration_timestamps refusesUndefined
           {[ "orders" :=
                [literal [("orderId", VStr "O1"); ("shopId", VStr "S1");
                          ("clientName", VStr "Ann"); ("agent", VStr "Kel");
                          ("location", VStr "NY"); ("price", VStr "120");
                          ("status", VStr "Pending")]] ]}
           "orders"
           (orderDoc (literal [("orderId", VStr "O1"); ("shopId", VStr "S1");
                               ("clientName", VStr "Ann"); ("agent", VStr "Kel");
                               ("location", VStr "NY"); ("price", VStr "120");
                               ("status", VStr "Pending")]))).
  vm_compute. left. reflexivity.
Defined.

End MigrateFacts.

(** * Further properties of the sources *)

(** ** More on the built-ins *)

Module JSMore.
Import JS JSFacts.

Lemma lowerChar_idem (c : ascii) : lowerChar (lowerChar c) = lowerChar c.
Proof. destruct c as [[] [] [] [] [] [] [] []]; reflexivity. Qed.

Lemma toLowerCase_idem (s : string) : toLowerCase (toLowerCase s) = toLowerCase s.
Proof.
  induction s as [|c s IH]; simpl; [reflexivity|].
  now rewrite lowerChar_idem, IH.
Qed.

Lemma truthy_toLowerCase (s : string) : truthy (toLowerCase s) = truthy s.
Proof. now destruct s. Qed.

Lemma trimEnd_idem (s : string) : trimEnd (trimEnd s) = trimEnd s.
Proof.
  induction s as [|c s IH]; [reflexivity|].
  cbn [trimEnd]. destruct (trimEnd s) as [|d r] eqn:T.
  - destruct (isWhiteSpace c) eqn:W; [reflexivity|].
    cbn [trimEnd]. now rewrite W.
  - cbn [trimEnd]. cbn [trimEnd] in IH. now rewrite IH.
Qed.

Lemma trimStart_head (s : string) :
  match trimStart s with
  | EmptyString => True
  | String c _ => isWhiteSpace c = false
  end.
Proof.
  induction s as [|c s IH]; simpl; [exact I|].
  destruct (isWhiteSpace c) eqn:W; [assumption|exact W].
Qed.

Lemma trimEnd_head (c : ascii) (s : string) :
  isWhiteSpace c = false -> exists r, trimEnd (String c s) = String c r.
Proof.
  intros W. cbn [trimEnd]. destruct (trimEnd s); rewrite ?W; eauto.
Qed.

(** Trimming a trimmed string changes nothing. *)
Lemma trim_idem (s : string) : trim (trim s) = trim s.
Proof.
  unfold trim. pose proof (trimStart_head s) as H.
  destruct (trimStart s) as [|c t] eqn:T; [reflexivity|].
  destruct (trimEnd_head c t H) as [r R]. rewrite R.
  cbn [trimStart]. rewrite H, <- R. apply trimEnd_idem.
Qed.

Lemma trim_empty : trim "" = "".
Proof. reflexivity. Qed.

Lemma digitRun_idem (s : string) : digitRun (digitRun s) = digitRun s.
Proof.
  induction s as [|c s IH]; simpl; [reflexivity|].
  destruct (isDigit c) eqn:D; simpl; [now rewrite D, IH | reflexivity].
Qed.

Lemma digitRun_split (s : string) :
  exists post, s = digitRun s +:+ post /\ digitRun post = "".
Proof.
  induction s as [|c s (post & E & P)]; simpl.
  - exists "". split; reflexivity.
  - destruct (isDigit c) eqn:D.
    + exists post. rewrite append_cons. split; [now rewrite <- E | assumption].
    + exists (String c s). split; [reflexivity|]. simpl. now rewrite D.
Qed.

(** The match of [/\d+/] is the first maximal run of digits. *)
Lemma matchDigits_Some (s r : string) :
  matchDigits s = Some r ->
  exists pre post,
    s = pre +:+ r +:+ post
    /\ matchDigits pre = None
    /\ r <> "" /\ digitRun r = r
    /\ digitRun post = "".
Proof.
  induction s as [|c s IH]; simpl; [discriminate|].
  destruct (isDigit c) eqn:D.
  - intros [= <-]. destruct (digitRun_split s) as (post & E & P).
    exists "", post. repeat split; try assumption.
    + change ("" +:+ ?x) with x. rewrite append_cons. now rewrite <- E.
    + discriminate.
    + simpl. now rewrite D, digitRun_idem.
  - intros M. destruct (IH M) as (pre & post & E & N & R).
    exists (String c pre), post. rewrite append_cons, <- E.
    split; [reflexivity|]. split; [|assumption]. simpl. now rewrite D.
Qed.

Lemma matchDigits_run (r : string) :
  r <> "" -> digitRun r = r -> matchDigits r = Some r.
Proof.
  destruct r as [|c r]; [contradiction|]. intros _ R. simpl in *.
  destruct (isDigit c); [now rewrite R | discriminate].
Qed.

(** An occurrence of a one-character pattern after a prefix free of it. *)
Lemma indexOf_char (c : ascii) (l rest : string) :
  includes (String c "") l = false ->
  indexOf (String c "") (l +:+ String c rest) = Some (String.length l).
Proof.
  induction l as [|a l IH]; intros N.
  - change ("" +:+ ?x) with x. rewrite indexOf_eq. simpl.
    destruct (ascii_dec c c); [|contradiction]. now destruct rest.
  - rewrite append_cons, indexOf_eq.
    apply includes_false in N. rewrite indexOf_eq in N.
    destruct (String.prefix (String c "") (String a l)) eqn:P; [discriminate|].
    assert (P' : String.prefix (String c "") (String a (l +:+ String c rest)) = false).
    { simpl in *. destruct (ascii_dec c a); [now destruct l|reflexivity]. }
    rewrite P'. destruct (indexOf (String c "") l) eqn:E; [discriminate|].
    rewrite IH; [reflexivity|]. now apply includes_false.
Qed.

Lemma take_append (l r : string) : take (String.length l) (l +:+ r) = l.
Proof.
  induction l as [|a l IH]; [now destruct r|].
  rewrite append_cons. simpl. now rewrite IH.
Qed.

Lemma drop_append (l r : string) : drop (String.length l) (l +:+ r) = r.
Proof.
  induction l as [|a l IH]; [now destruct r|].
  rewrite append_cons. simpl. exact IH.
Qed.

(** Splitting at a one-character separator undoes joining with it, for
    pieces that do not contain it. *)
Lemma split_join (c : ascii) (parts : list string) :
  parts <> [] ->
  Forall (fun p => includes (String c "") p = false) parts ->
  split (String c "") (join (String c "") parts) = parts.
Proof.
  assert (Hsep : String c "" <> "") by discriminate.
  induction parts as [|p parts IH]; [contradiction|]. intros _ F.
  inversion F as [|? ? Hp Hparts]; subst.
  destruct parts as [|q parts].
  - cbn [join]. now apply split_none.
  - change (join (String c "") (p :: q :: parts))
      with (p +:+ String c (join (String c "") (q :: parts))).
    rewrite split_unfold by assumption.
    rewrite indexOf_char by assumption.
    rewrite take_append. f_equal.
    replace (String.length p + String.length (String c ""))
      with (String.length (p +:+ String c "")).
    + replace (p +:+ String c (join (String c "") (q :: parts)))
        with ((p +:+ String c "") +:+ join (String c "") (q :: parts)).
      * rewrite drop_append. apply IH; [discriminate | assumption].
      * clear. induction p as [|a p IHp]; [reflexivity|].
        rewrite !append_cons. now rewrite IHp.
    + clear. induction p as [|a p IHp]; [reflexivity|].
      rewrite append_cons. simpl. now rewrite IHp.
Qed.

End JSMore.

(** ** More on the text parser *)

Module ParserMore.
Import JS JSFacts JSMore Parser ParserFacts.

(** Age post-processing takes the first maximal run of digits out of the
    text, whatever surrounds it; a text without a digit is kept as it is. *)
Theorem extractAge_first_run (ageText : string) :
  (exists pre post,
     ageText = pre +:+ extractAge ageText +:+ post
     /\ matchDigits pre = None
     /\ extractAge ageText <> ""
     /\ digitRun (extractAge ageText) = extractAge ageText
     /\ digitRun post = "")
  \/ (matchDigits ageText = None /\ extractAge ageText = ageText).
Proof.
  unfold extractAge. destruct (matchDigits ageText) as [r|] eqn:M.
  - left. apply matchDigits_Some in M as (pre & post & E & N & R & D & P).
    exists pre, post. auto.
  - right. auto.
Qed.

(** Processing an age twice gives what processing it once gives. *)
Theorem extractAge_idempotent (ageText : string) :
  extractAge (extractAge ageText) = extractAge ageText.
Proof.
  unfold extractAge at 2 3. destruct (matchDigits ageText) as [r|] eqn:M.
  - apply matchDigits_Some in M as (_ & _ & _ & _ & R & D & _).
    unfold extractAge. now rewrite matchDigits_run.
  - unfold extractAge. now rewrite M.
Qed.

(** The cleaned name never starts or ends with white space, and a name
    without the separator is only trimmed. *)
Theorem cleanName_trimmed (nameText : string) :
  trim (cleanName nameText) = cleanName nameText
  /\ (includes " / " nameText = false -> cleanName nameText = trim nameText).
Proof.
  unfold cleanName. destruct (includes " / " nameText); split;
    try apply trim_idem; try discriminate; reflexivity.
Qed.

Lemma nonEmptyLines_join (lines : list string) :
  Forall (fun l => includes LF l = false) lines ->
  nonEmptyLines (join LF lines) = List.filter nonBlank lines.
Proof.
  intros F. unfold nonEmptyLines. destruct lines as [|l lines]; [reflexivity|].
  unfold LF. rewrite split_join; [reflexivity | discriminate | assumption].
Qed.

Lemma hasLabels_false (lines : list string) :
  Forall (fun l => includes ":" l = false) lines -> hasLabels lines = false.
Proof.
  induction 1 as [|l lines H F IH]; [reflexivity|].
  unfold hasLabels in *. simpl. now rewrite H, IH.
Qed.

Lemma Forall_filter {A : Type} (P : A -> Prop) (p : A -> bool) (l : list A) :
  Forall P l -> Forall P (List.filter p l).
Proof.
  induction 1 as [|x l H F IH]; simpl; [constructor|].
  destruct (p x); [now constructor | assumption].
Qed.

(** Positional mode: the fields are read off the first five non-blank
    lines, in order; blank lines are skipped, lines after the fifth are
    ignored, a missing trailing line leaves its field empty, and with fewer
    than two non-blank lines nothing at all is read. *)
Theorem positional_fields (lines : list string) :
  Forall (fun l => includes LF l = false) lines ->
  Forall (fun l => includes ":" l = false) lines ->
  parseFields (join LF lines) =
  let rows := List.filter nonBlank lines in
  if 2 <=? length rows then
    mkFields (cleanName (trim (nth 0 rows ""))) (extractAge (trim (nth 1 rows "")))
             (trim (nth 2 rows "")) (trim (nth 3 rows "")) (trim (nth 4 rows ""))
  else initial.
Proof.
  intros N C. unfold parseFields. rewrite nonEmptyLines_join by assumption.
  rewrite hasLabels_false by now apply Forall_filter.
  cbv zeta. unfold parsePositional.
  destruct (List.filter nonBlank lines) as [|a [|b [|c [|d [|e rest]]]]]; reflexivity.
Qed.

Lemma positional_fields_witness :
  parseFields (join LF ["jdoe / John Doe"; "  "; "35 years"; ""; "LA"])
  = mkFields "John Doe" "35" "LA" "" "".
Proof.
  rewrite (positional_fields ["jdoe / John Doe"; "  "; "35 years"; ""; "LA"]).
  - reflexivity.
  - repeat constructor.
  - repeat constructor.
Defined.

Lemma labelOf_colon (line : string) (l : Label) :
  labelOf line = Some l -> includes ":" line = true.
Proof. unfold labelOf. destruct (includes ":" line); [reflexivity | discriminate]. Qed.

Lemma assign_read_same (l : Label) (v : string) (f : Fields) :
  read l (assign l v f) = v.
Proof. now destruct l. Qed.

Lemma assign_read_other (l l' : Label) (v : string) (f : Fields) :
  l <> l' -> read l (assign l' v f) = read l f.
Proof. destruct l, l'; intros H; try reflexivity; contradiction. Qed.

(** Lines that are not matched to [l] leave the local [l] as it is. *)
Lemma fold_assign_other (l : Label) (lines : list string) (f : Fields) :
  Forall (fun p => labelOf p <> Some l) lines ->
  read l (fold_left assignLine lines f) = read l f.
Proof.
  intros F. revert f. induction F as [|p lines H F IH]; intros f; [reflexivity|].
  simpl. rewrite IH, assignLine_label.
  destruct (labelOf p) as [l'|]; [|reflexivity].
  apply assign_read_other. congruence.
Qed.

(** Blank lines, which the parser drops, would assign nothing anyway. *)
Lemma fold_assign_nonBlank (lines : list string) (f : Fields) :
  fold_left assignLine (List.filter nonBlank lines) f = fold_left assignLine lines f.
Proof.
  revert f. induction lines as [|p lines IH]; intros f; [reflexivity|].
  simpl. destruct (nonBlank p) eqn:B; simpl; [apply IH|].
  rewrite IH. f_equal. unfold assignLine.
  destruct (includes ":" p) eqn:C; [|reflexivity].
  apply negb_false_iff, String.eqb_eq, trim_blank in B.
  now rewrite (includes_not_blank ":" p eq_refl C) in B.
Qed.

(** Labeled mode: a field takes the value of the last line labeled for it,
    and a field for which no line is labeled stays empty. *)
Theorem labeled_last_wins (before after : list string) (line : string) (l : Label) :
  Forall (fun p => includes LF p = false) (before ++ line :: after) ->
  labelOf line = Some l ->
  Forall (fun p => labelOf p <> Some l) after ->
  read l (parseFields (join LF (before ++ line :: after))) = assignedValue line.
Proof.
  intros N L A. unfold parseFields. rewrite nonEmptyLines_join by assumption.
  assert (H : hasLabels (List.filter nonBlank (before ++ line :: after)) = true).
  { rewrite <- nonEmptyLines_join by assumption. apply hasLabels_iff.
    exists line. split; [|now apply labelOf_colon in L].
    unfold LF. rewrite split_join; [apply in_elt | now destruct before | assumption]. }
  rewrite H. unfold parseLabeled. rewrite fold_assign_nonBlank.
  rewrite fold_left_app. simpl. rewrite fold_assign_other by assumption.
  rewrite assignLine_label, L. apply assign_read_same.
Qed.

Lemma labeled_last_wins_witness :
  read LName (parseFields (join LF ["Name: Ann"; "Age: 30"; "Full name: u1 / Bea"; "Loc: NY"]))
  = "Bea".
Proof.
  apply (labeled_last_wins ["Name: Ann"; "Age: 30"] ["Loc: NY"] "Full name: u1 / Bea" LName).
  - repeat constructor.
  - reflexivity.
  - repeat constructor. discriminate.
Defined.

(** Labeled mode: a field no line is labeled for stays empty. *)
Theorem labeled_unlabeled_empty (lines : list string) (l : Label) :
  Forall (fun p => includes LF p = false) lines ->
  (exists line, In line lines /\ includes ":" line = true) ->
  Forall (fun p => labelOf p <> Some l) lines ->
  read l (parseFields (join LF lines)) = "".
Proof.
  intros N (line & I & C) A. unfold parseFields.
  rewrite nonEmptyLines_join by assumption.
  assert (H : hasLabels (List.filter nonBlank lines) = true).
  { rewrite <- nonEmptyLines_join by assumption. apply hasLabels_iff.
    exists line. split; [|assumption].
    unfold LF. rewrite split_join; [assumption | now destruct lines | assumption]. }
  rewrite H. unfold parseLabeled. rewrite fold_assign_nonBlank.
  rewrite fold_assign_other by assumption. now destruct l.
Qed.

Lemma labeled_unlabeled_empty_witness :
  read LWork (parseFields (join LF ["Name: Ann"; "Age: 30"; "Hobby: chess"; "no label here"]))
  = "".
Proof.
  apply (labeled_unlabeled_empty ["Name: Ann"; "Age: 30"; "Hobby: chess"; "no label here"] LWork).
  - repeat constructor.
  - exists "Name: Ann". split; [left|]; reflexivity.
  - repeat constructor; discriminate.
Defined.

End ParserMore.

(** ** More on the dashboard: pasting, deleting, the stores *)

Module StoreFacts.
Import JS JSFacts JSMore Dashboard.

Lemma orElse_truthy (a b : string) : truthy b = true -> truthy (orElse a b) = true.
Proof. intros B. unfold orElse. destruct (truthy a) eqn:A; assumption. Qed.

Lemma orElse_self (a : string) : orElse a a = a.
Proof. unfold orElse. now destruct (truthy a). Qed.

Lemma orElse_keep (a b : string) : truthy a = true -> orElse a b = a.
Proof. intros A. unfold orElse. now rewrite A. Qed.

Lemma orElse_empty (a : string) : orElse a "" = a.
Proof. now destruct a. Qed.

Lemma newClient_complete (env : Env) (st : State) (key : string) (f : Parser.Fields) :
  Parser.missingRequired f = false -> complete (newClient env st key f) = true.
Proof.
  unfold Parser.missingRequired, complete. intros M.
  apply orb_false_iff in M as [N A]. apply negb_false_iff in N, A.
  cbn [newClient name age location work application].
  now rewrite N, A, !orElse_truthy.
Qed.


(** Pasting keeps the records complete: if every record of the list and of
    the remote collection has its five parsed fields filled in, this still
    holds after the parser action, whatever was pasted. *)
Theorem processClientInfo_keeps_complete (env : Env) (st : State) :
  Forall (fun c => complete c = true) (clients st) ->
  Forall (fun c => complete c = true) (remote st) ->
  Forall (fun c => complete c = true) (clients (processClientInfo env st))
  /\ Forall (fun c => complete c = true) (remote (processClientInfo env st)).
Proof.
  intros C R. unfold processClientInfo.
  destruct (negb (truthy (trim (clientText st)))); [now split|].
  destruct (Parser.missingRequired _) eqn:M; [now split|].
  destruct (user st) as [u|].
  - destruct (remoteRejects env); [now split|].
    split; [assumption|]. cbn [remote toast setClientText setRemote].
    apply Forall_app. split; [assumption|].
    constructor; [now apply newClient_complete | constructor].
  - split; [|assumption]. cbn [clients toast setClientText setItem setClients].
    apply Forall_app. split; [assumption|].
    constructor; [now apply newClient_complete | constructor].
Qed.

Lemma processClientInfo_keeps_complete_witness :
  Forall (fun c => complete c = true)
    (clients (processClientInfo
                (mkEnv "2024-01-02" "1704153600000" "doc1" false (fun s => s))
                (mkState "Ann / 30"
                   [mkClient "1" "Bea" "41" "NY" "Unknown" "Unknown" "Kel" "2023-12-15" None None]
                   None false None [] []))).
Proof.
  apply (processClientInfo_keeps_complete
           (mkEnv "2024-01-02" "1704153600000" "doc1" false (fun s => s))
           (mkState "Ann / 30"
              [mkClient "1" "Bea" "41" "NY" "Unknown" "Unknown" "Kel" "2023-12-15" None None]
              None false None [] [])).
  - repeat constructor.
  - constructor.
Defined.

Lemma keepOthers_absent (key : string) (l : list ClientAssignment) :
  ~ In key (map id l) -> keepOthers key l = l.
Proof.
  induction l as [|c l IH]; intros N; [reflexivity|].
  unfold keepOthers in *. simpl in *.
  destruct (String.eqb_spec (id c) key) as [E|E]; [tauto|].
  simpl. f_equal. apply IH. tauto.
Qed.

(** Deleting a key no record has is reported as a success all the same:
    for an administrator whose remote call is not rejected the "Client
    Deleted" notice is shown, and the list and the remote collection are as
    before. *)
Theorem delete_unknown_key_succeeds (env : Env) (key : string) (st : State) :
  isAdmin st = true ->
  remoteRejects env = false ->
  ~ In key (map id (clients st)) ->
  ~ In key (map id (remote st)) ->
  let st' := handleDeleteClient env key st in
  clients st' = clients st
  /\ remote st' = remote st
  /\ toasts st' = toasts st ++ [notice "Client Deleted" "Client has been deleted successfully"].
Proof.
  intros A R C D st'. subst st'. unfold handleDeleteClient. rewrite A, R.
  cbn [negb]. destruct (user st); cbn [clients remote toasts toast setRemote setItem setClients];
    rewrite ?keepOthers_absent by assumption; repeat split.
Qed.

Lemma delete_unknown_key_succeeds_witness :
  toasts (handleDeleteClient
            (mkEnv "2024-01-02" "1704153600000" "doc1" false (fun s => s)) "nobody"
            (mkState "" [] (Some (mkUser (Some "admin@example.com"))) true None
               [mkClient "k1" "Bea" "41" "NY" "Unknown" "Unknown" "Kel" "2023-12-15" None None] []))
  = [notice "Client Deleted" "Client has been deleted successfully"].
Proof.
  apply (delete_unknown_key_succeeds
           (mkEnv "2024-01-02" "1704153600000" "doc1" false (fun s => s)) "nobody"
           (mkState "" [] (Some (mkUser (Some "admin@example.com"))) true None
              [mkClient "k1" "Bea" "41" "NY" "Unknown" "Unknown" "Kel" "2023-12-15" None None] [])
           eq_refl eq_refl).
  - simpl. tauto.
  - simpl. intuition discriminate.
Defined.

(** What the subscription shows: one record per remote document, in order
    and under the document's key, with location, work and application
    never empty and without the two timestamps. *)
Theorem onSnapshot_records (env : Env) (st : State) :
  map id (clients (onSnapshot env st)) = map id (remote st)
  /\ Forall (fun c => truthy (location c) = true /\ truthy (work c) = true
                      /\ truthy (application c) = true
                      /\ createdAt c = None /\ updatedAt c = None)
            (clients (onSnapshot env st))
  /\ localStorage (onSnapshot env st) = localStorage st
  /\ remote (onSnapshot env st) = remote st.
Proof.
  unfold onSnapshot. cbn [clients localStorage remote setClients].
  split; [|split; [|split; reflexivity]].
  - rewrite map_map. reflexivity.
  - apply Forall_map, Forall_forall. intros d _.
    cbn [fromSnapshot location work application createdAt updatedAt].
    now rewrite !orElse_truthy.
Qed.

Lemma fromSnapshot_newClient (env : Env) (st : State) (key : string) (f : Parser.Fields) :
  Parser.missingRequired f = false ->
  fromSnapshot env (newClient env st key f)
  = mkClient key (Parser.name f) (Parser.age f)
             (orElse (Parser.location f) "Unknown")
             (orElse (Parser.work f) "Unknown")
             (orElse (Parser.application f) "Unknown")
             (capitalized env (currentAgent st)) (today env) None None.
Proof.
  unfold Parser.missingRequired. intros M.
  apply orb_false_iff in M as [N A]. apply negb_false_iff in N, A.
  unfold fromSnapshot, newClient.
  cbn [id name age location work application assignedAgent date].
  rewrite (orElse_keep _ _ N), (orElse_keep _ _ A), orElse_empty, orElse_self.
  rewrite !(orElse_keep (orElse _ "Unknown")) by now apply orElse_truthy.
  reflexivity.
Qed.

(** A record pasted with a session comes back from the subscription as it
    was written, under the key the store gave it and without the
    timestamps: after the parser action succeeds, the next snapshot shows
    the earlier documents and the new record, and nothing else (where the
    store lists the new one among the others is not determined here). *)
Theorem paste_then_snapshot (env : Env) (st : State) :
  user st <> None ->
  remoteRejects env = false ->
  truthy (trim (clientText st)) = true ->
  Parser.missingRequired (Parser.parseFields (clientText st)) = false ->
  let f := Parser.parseFields (clientText st) in
  Permutation
    (clients (onSnapshot env (processClientInfo env st)))
    (mkClient (autoId env) (Parser.name f) (Parser.age f)
              (orElse (Parser.location f) "Unknown")
              (orElse (Parser.work f) "Unknown")
              (orElse (Parser.application f) "Unknown")
              (capitalized env (currentAgent st)) (today env) None None
     :: map (fromSnapshot env) (remote st)).
Proof.
  intros U R T M f. subst f. unfold processClientInfo. rewrite T, M. cbn [negb].
  destruct (user st) as [u|] eqn:Us; [|contradiction]. rewrite R.
  unfold onSnapshot. cbn [clients remote toast setClientText setRemote setClients].
  rewrite map_app. cbn [map].
  rewrite fromSnapshot_newClient by assumption.
  symmetry. apply Permutation_cons_append.
Qed.

Lemma paste_then_snapshot_witness :
  Permutation
    (clients (onSnapshot
                (mkEnv "2024-01-02" "1704153600000" "a7Qx" false toUpperCaseASCII)
                (processClientInfo
                   (mkEnv "2024-01-02" "1704153600000" "a7Qx" false toUpperCaseASCII)
                   (mkState ("Name: Ann" +:+ LF +:+ "Age: 30") []
                      (Some (mkUser (Some "kel@corp.test"))) false None
                      [mkClient "b1" "Bea" "41" "NY" "Cook" "TanTan" "Ken" "2023-12-15"
                                (Some ServerTimestamp) (Some ServerTimestamp)] []))))
    [mkClient "a7Qx" "Ann" "30" "Unknown" "Unknown" "Unknown" "Kel" "2024-01-02" None None;
     mkClient "b1" "Bea" "41" "NY" "Cook" "TanTan" "Ken" "2023-12-15" None None].
Proof.
  apply (paste_then_snapshot
           (mkEnv "2024-01-02" "1704153600000" "a7Qx" false toUpperCaseASCII)
           (mkState ("Name: Ann" +:+ LF +:+ "Age: 30") []
              (Some (mkUser (Some "kel@corp.test"))) false None
              [mkClient "b1" "Bea" "41" "NY" "Cook" "TanTan" "Ken" "2023-12-15"
                        (Some ServerTimestamp) (Some ServerTimestamp)] []));
    [discriminate | reflexivity | reflexivity | reflexivity].
Defined.

(** Deleting with a session and then receiving the snapshot: no record
    under the deleted key is shown any more, and every other document is
    shown as before, in order. *)
Theorem delete_then_snapshot (env : Env) (key : string) (st : State) :
  isAdmin st = true ->
  user st <> None ->
  remoteRejects env = false ->
  let st' := onSnapshot env (handleDeleteClient env key st) in
  clients st' = keepOthers key (map (fromSnapshot env) (remote st))
  /\ ~ In key (map id (clients st')).
Proof.
  intros A U R st'. subst st'. unfold handleDeleteClient. rewrite A. cbn [negb].
  destruct (user st) as [u|]; [|contradiction]. rewrite R.
  unfold onSnapshot. cbn [clients remote toast setRemote setClients].
  assert (E : map (fromSnapshot env) (keepOthers key (remote st))
              = keepOthers key (map (fromSnapshot env) (remote st))).
  { unfold keepOthers. induction (remote st) as [|d l IH]; [reflexivity|].
    simpl. destruct (negb (id d =? key)%string); simpl; now rewrite IH. }
  rewrite E. split; [reflexivity|].
  intros (c & Ec & [_ N]%filter_In)%in_map_iff.
  apply negb_true_iff, String.eqb_neq in N. contradiction.
Qed.

Lemma delete_then_snapshot_witness :
  clients (onSnapshot
             (mkEnv "2024-01-02" "1704153600000" "doc1" false (fun s => s))
             (handleDeleteClient
                (mkEnv "2024-01-02" "1704153600000" "doc1" false (fun s => s)) "k1"
                (mkState "" [] (Some (mkUser (Some "admin@example.com"))) true None
                   [mkClient "k1" "Bea" "41" "NY" "" "" "Kel" "2023-12-15" None None;
                    mkClient "k2" "Cy" "25" "" "Cook" "" "Ken" "2023-12-16" None None] [])))
  = [mkClient "k2" "Cy" "25" "Unknown" "Cook" "Unknown" "Ken" "2023-12-16" None None].
Proof.
  apply (delete_then_snapshot
           (mkEnv "2024-01-02" "1704153600000" "doc1" false (fun s => s)) "k1"
           (mkState "" [] (Some (mkUser (Some "admin@example.com"))) true None
              [mkClient "k1" "Bea" "41" "NY" "" "" "Kel" "2023-12-15" None None;
               mkClient "k2" "Cy" "25" "" "Cook" "" "Ken" "2023-12-16" None None] [])
           eq_refl ltac:(discriminate) eq_refl).
Defined.

End StoreFacts.

(** ** Inline editing and sessions *)

Module EditFacts.
Import JS JSFacts Dashboard StoreFacts.

Lemma id_setField (f : Field) (v : string) (c : ClientAssignment) :
  f <> FId -> id (setField f v c) = id c.
Proof. destruct f; intros H; try reflexivity; contradiction. Qed.

Lemma id_updateData (f : Field) (v : string) (c : ClientAssignment) :
  id (updateData f v c) = id c.
Proof. now destruct f. Qed.

(** Writing a field and reading it back; the other fields are untouched. *)
Lemma getField_setField_same (f : Field) (v : string) (c : ClientAssignment) :
  getField f (setField f v c) = v.
Proof. now destruct f. Qed.

Lemma getField_setField_other (f g : Field) (v : string) (c : ClientAssignment) :
  f <> g -> getField g (setField f v c) = getField g c.
Proof. destruct f, g; intros H; try reflexivity; contradiction. Qed.

Lemma map_id_update (p : ClientAssignment -> bool) (g : ClientAssignment -> ClientAssignment)
    (l : list ClientAssignment) :
  (forall c, id (g c) = id c) ->
  map id (map (fun c => if p c then g c else c) l) = map id l.
Proof.
  intros G. rewrite map_map. apply map_ext. intros c. now destruct (p c).
Qed.

Lemma hasDoc_In (key : string) (docs : list ClientAssignment) :
  hasDoc key docs = true <-> In key (map id docs).
Proof.
  unfold hasDoc. rewrite existsb_exists, in_map_iff. split.
  - intros (d & I & E%String.eqb_eq). eauto.
  - intros (d & E & I). exists d. split; [assumption | now apply String.eqb_eq].
Qed.

(** One event keeps the keys of both collections, and never opens a cell
    on the [id] column. *)
Lemma editStep_keys (newDate : string -> Date) (env : Env) (ed : Editor) (ev : EditEvent) :
  field (editingCell ed) <> Some FId ->
  field (editingCell (editStep newDate env ed ev)) <> Some FId
  /\ map id (clients (state (editStep newDate env ed ev))) = map id (clients (state ed))
  /\ map id (remote (state (editStep newDate env ed ev))) = map id (remote (state ed)).
Proof.
  intros Ok. destruct ev as [client f|v| |]; cbn [editStep].
  - unfold startEdit.
    destruct f; cbn; (split; [first [assumption | discriminate] | split; reflexivity]).
  - cbn. split; [assumption | split; reflexivity].
  - unfold saveEdit.
    destruct (clientId (editingCell ed)) as [cid|];
      [|split; [assumption | split; reflexivity]].
    destruct (field (editingCell ed)) as [f|] eqn:F;
      [|split; [rewrite F; discriminate | split; reflexivity]].
    destruct (truthy cid); [|split; [congruence | split; reflexivity]].
    cbn [editingCell state field noCell]. split; [discriminate|].
    assert (Hf : f <> FId) by congruence.
    destruct (user (state ed)).
    + destruct (remoteRejects env || negb (hasDoc cid (remote (state ed))));
        cbn [clients remote toast setRemote]; [now split|].
      split; [reflexivity|]. apply map_id_update. intros c. apply id_updateData.
    + cbn [clients remote toast setItem setClients]. split; [|reflexivity].
      apply map_id_update. intros c. now apply id_setField.
  - cbn. split; [discriminate | split; reflexivity].
Qed.

(** Editing never adds, removes, reorders or renames records: whatever is
    clicked, typed, committed or cancelled, from a state where no cell of
    the [id] column is open, the keys of the list and of the remote
    collection stay as they are. *)
Theorem edit_keeps_keys (newDate : string -> Date) (env : Env) (ed : Editor)
    (evs : list EditEvent) :
  field (editingCell ed) <> Some FId ->
  map id (clients (state (editRun newDate env ed evs))) = map id (clients (state ed))
  /\ map id (remote (state (editRun newDate env ed evs))) = map id (remote (state ed)).
Proof.
  unfold editRun. revert ed. induction evs as [|ev evs IH]; intros ed Ok; [now split|].
  cbn [fold_left].
  destruct (editStep_keys newDate env ed ev Ok) as (Ok' & C & R).
  destruct (IH _ Ok') as [C' R']. split; congruence.
Qed.

Lemma edit_keeps_keys_witness :
  map id (clients (state (editRun (fun _ => InvalidDate)
       (mkEnv "2024-01-02" "1704153600000" "doc1" false (fun s => s))
       (mkEditor
          (mkState "" [mkClient "1" "Bea" "41" "NY" "Unknown" "Unknown" "Kel" "2023-12-15" None None]
                   None false None [] [])
          noCell None)
       [Click (mkClient "1" "Bea" "41" "NY" "Unknown" "Unknown" "Kel" "2023-12-15" None None) FId;
        Input "2"; Commit;
        Click (mkClient "1" "Bea" "41" "NY" "Unknown" "Unknown" "Kel" "2023-12-15" None None) FName;
        Input "Bee"; Commit])))
  = ["1"].
Proof.
  apply (edit_keeps_keys (fun _ => InvalidDate)
           (mkEnv "2024-01-02" "1704153600000" "doc1" false (fun s => s))
           (mkEditor
              (mkState "" [mkClient "1" "Bea" "41" "NY" "Unknown" "Unknown" "Kel" "2023-12-15" None None]
                       None false None [] [])
              noCell None)).
  discriminate.
Defined.

(** Only a commit writes: a run of clicks, typing and cancels leaves the
    list, both stores and the toasts exactly as they were. *)
Theorem edit_without_commit (newDate : string -> Date) (env : Env) (ed : Editor)
    (evs : list EditEvent) :
  Forall (fun ev => ev <> Commit) evs ->
  state (editRun newDate env ed evs) = state ed.
Proof.
  unfold editRun. intros F. revert ed.
  induction F as [|ev evs H F IH]; intros ed; [reflexivity|].
  cbn [fold_left]. rewrite IH.
  destruct ev as [client f|v| |]; cbn [editStep]; try reflexivity; try contradiction.
  unfold startEdit. now destruct f.
Qed.

Lemma edit_without_commit_witness :
  state (editRun (fun _ => InvalidDate)
       (mkEnv "2024-01-02" "1704153600000" "doc1" false (fun s => s))
       (mkEditor
          (mkState "" [mkClient "1" "Bea" "41" "NY" "Unknown" "Unknown" "Kel" "2023-12-15" None None]
                   None false None [] [])
          noCell None)
       [Click (mkClient "1" "Bea" "41" "NY" "Unknown" "Unknown" "Kel" "2023-12-15" None None) FAge;
        Input "42"; Escape])
  = mkState "" [mkClient "1" "Bea" "41" "NY" "Unknown" "Unknown" "Kel" "2023-12-15" None None]
            None false None [] [].
Proof.
  apply (edit_without_commit (fun _ => InvalidDate)
           (mkEnv "2024-01-02" "1704153600000" "doc1" false (fun s => s))).
  repeat constructor; discriminate.
Defined.

(** Click, type, commit, without a session: every record under the clicked
    record's key gets the typed text in the clicked field, verbatim (it is
    neither trimmed nor checked, so a name can be emptied), all other
    records and fields stay, the fallback store is rewritten to the new
    list, and the cell is closed. *)
Theorem click_type_commit (newDate : string -> Date) (env : Env) (ed : Editor)
    (client : ClientAssignment) (f : Field) (v : string) :
  user (state ed) = None ->
  truthy (id client) = true ->
  f <> FId ->
  let ed' := editRun newDate env ed [Click client f; Input v; Commit] in
  let updatedClients :=
    map (fun c => if String.eqb (id c) (id client) then setField f v c else c)
        (clients (state ed)) in
  clients (state ed') = updatedClients
  /\ localStorage (state ed') = Some updatedClients
  /\ remote (state ed') = remote (state ed)
  /\ editingCell ed' = noCell
  /\ selectedDate ed' = None
  /\ (In client (clients (state ed)) -> In (setField f v client) (clients (state ed')))
  /\ getField f (setField f v client) = v.
Proof.
  intros U T F ed' updatedClients. subst ed' updatedClients.
  unfold editRun. cbn [fold_left editStep].
  assert (S : startEdit newDate client f ed
              = mkEditor (state ed) (mkCell (Some (id client)) (Some f) (getField f client))
                         (match f with FDate => Some (newDate (date client)) | _ => selectedDate ed end)).
  { unfold startEdit. destruct f; try reflexivity; contradiction. }
  rewrite S. unfold changeValue, saveEdit.
  cbn [editingCell clientId field value state]. rewrite T, U.
  cbn [state editingCell selectedDate clients localStorage remote toast setItem setClients].
  repeat split.
  - intros I. apply in_map_iff. exists client. now rewrite String.eqb_refl.
  - apply getField_setField_same.
Qed.

Lemma click_type_commit_witness :
  clients (state (editRun (fun _ => InvalidDate)
       (mkEnv "2024-01-02" "1704153600000" "doc1" false (fun s => s))
       (mkEditor
          (mkState "" [mkClient "1" "Bea" "41" "NY" "Unknown" "Unknown" "Kel" "2023-12-15" None None;
                       mkClient "2" "Cy" "25" "LA" "Cook" "Unknown" "Ken" "2023-12-16" None None]
                   None false None [] [])
          noCell None)
       [Click (mkClient "1" "Bea" "41" "NY" "Unknown" "Unknown" "Kel" "2023-12-15" None None) FName;
        Input ""; Commit]))
  = [mkClient "1" "" "41" "NY" "Unknown" "Unknown" "Kel" "2023-12-15" None None;
     mkClient "2" "Cy" "25" "LA" "Cook" "Unknown" "Ken" "2023-12-16" None None].
Proof.
  apply (click_type_commit (fun _ => InvalidDate)
           (mkEnv "2024-01-02" "1704153600000" "doc1" false (fun s => s))
           (mkEditor
              (mkState "" [mkClient "1" "Bea" "41" "NY" "Unknown" "Unknown" "Kel" "2023-12-15" None None;
                           mkClient "2" "Cy" "25" "LA" "Cook" "Unknown" "Ken" "2023-12-16" None None]
                       None false None [] [])
              noCell None)
           (mkClient "1" "Bea" "41" "NY" "Unknown" "Unknown" "Kel" "2023-12-15" None None)
           FName "" eq_refl eq_refl).
  discriminate.
Defined.

(** A commit that the remote store rejects, or whose record is no longer in
    the remote collection, loses the edit: an error is shown, nothing is
    written, and the cell is closed with the typed text gone. *)
Theorem commit_failure_discards (env : Env) (st : State) (key : string) (f : Field)
    (v : string) (d : option Date) :
  user st <> None ->
  truthy key = true ->
  remoteRejects env = true \/ ~ In key (map id (remote st)) ->
  saveEdit env (mkEditor st (mkCell (Some key) (Some f) v) d)
  = mkEditor (toast (destructive "Error" "Failed to update client information") st)
             noCell None.
Proof.
  intros U T H. unfold saveEdit. cbn [editingCell clientId field value state].
  rewrite T. destruct (user st); [|contradiction].
  assert (E : remoteRejects env || negb (hasDoc key (remote st)) = true).
  { destruct H as [-> | N]; [reflexivity|]. apply orb_true_iff. right.
    apply negb_true_iff. destruct (hasDoc key (remote st)) eqn:D; [|reflexivity].
    apply hasDoc_In in D. contradiction. }
  now rewrite E.
Qed.

Lemma commit_failure_discards_witness :
  saveEdit (mkEnv "2024-01-02" "1704153600000" "doc1" false (fun s => s))
    (mkEditor (mkState "" [mkClient "k1" "Bea" "41" "NY" "Unknown" "Unknown" "Kel" "2023-12-15" None None]
                 (Some (mkUser (Some "kel@corp.test"))) false None [] [])
              (mkCell (Some "k1") (Some FName) "Bee") None)
  = mkEditor
      (toast (destructive "Error" "Failed to update client information")
         (mkState "" [mkClient "k1" "Bea" "41" "NY" "Unknown" "Unknown" "Kel" "2023-12-15" None None]
            (Some (mkUser (Some "kel@corp.test"))) false None [] []))
      noCell None.
Proof.
  apply commit_failure_discards; [discriminate | reflexivity | right; simpl; tauto].
Defined.

(** A record whose key is the empty string cannot be edited: the commit
    does nothing at all, and the cell stays open. *)
Theorem empty_key_never_commits (newDate : string -> Date) (env : Env) (ed : Editor)
    (client : ClientAssignment) (f : Field) (v : string) :
  id client = "" ->
  f <> FId ->
  let ed' := editRun newDate env ed [Click client f; Input v; Commit] in
  state ed' = state ed
  /\ editingCell ed' = mkCell (Some "") (Some f) v.
Proof.
  intros E F ed'. subst ed'. unfold editRun. cbn [fold_left editStep].
  assert (S : startEdit newDate client f ed
              = mkEditor (state ed) (mkCell (Some (id client)) (Some f) (getField f client))
                         (match f with FDate => Some (newDate (date client)) | _ => selectedDate ed end)).
  { unfold startEdit. destruct f; try reflexivity; contradiction. }
  rewrite S, E. now split.
Qed.

Lemma empty_key_never_commits_witness :
  editingCell (editRun (fun _ => InvalidDate)
       (mkEnv "2024-01-02" "1704153600000" "doc1" false (fun s => s))
       (mkEditor
          (mkState "" [mkClient "" "Bea" "41" "NY" "Unknown" "Unknown" "Kel" "2023-12-15" None None]
                   None false None [] [])
          noCell None)
       [Click (mkClient "" "Bea" "41" "NY" "Unknown" "Unknown" "Kel" "2023-12-15" None None) FName;
        Input "Bee"; Commit])
  = mkCell (Some "") (Some FName) "Bee".
Proof.
  apply (empty_key_never_commits (fun _ => InvalidDate)
           (mkEnv "2024-01-02" "1704153600000" "doc1" false (fun s => s))
           (mkEditor
              (mkState "" [mkClient "" "Bea" "41" "NY" "Unknown" "Unknown" "Kel" "2023-12-15" None None]
                       None false None [] [])
              noCell None)
           (mkClient "" "Bea" "41" "NY" "Unknown" "Unknown" "Kel" "2023-12-15" None None)
           FName "Bee" eq_refl).
  discriminate.
Defined.

End EditFacts.

(** ** Sessions without a login *)

Module SessionFacts.
Import JS JSFacts Dashboard StoreFacts EditFacts.




End SessionFacts.

(** ** More on the filter effect *)

Module FilterFacts.
Import JS JSFacts JSMore Dashboard DashboardFacts.

Lemma filter_filter {A : Type} (p q : A -> bool) (l : list A) :
  List.filter p (List.filter q l) = List.filter (fun x => q x && p x) l.
Proof.
  induction l as [|x l IH]; simpl; [reflexivity|].
  destruct (q x); simpl; [destruct (p x)|]; now rewrite IH.
Qed.

Lemma filter_true {A : Type} (l : list A) : List.filter (fun _ => true) l = l.
Proof. induction l as [|x l IH]; simpl; [reflexivity | now rewrite IH]. Qed.

Lemma filter_idem {A : Type} (p : A -> bool) (l : list A) :
  List.filter p (List.filter p l) = List.filter p l.
Proof.
  rewrite filter_filter. apply filter_ext. intros x. now destruct (p x).
Qed.

Lemma filter_sublist {A : Type} (p : A -> bool) (l : list A) :
  sublist (List.filter p l) l.
Proof.
  induction l as [|x l IH]; simpl; [constructor|].
  destruct (p x); now constructor.
Qed.

Section Criterion.

Variable newDate : string -> Date.
Variable currentDate : Date.
Variables searchQuery locationFilter applicationFilter agentFilter monthFilter : string.

(** The five passes of the effect amount to one pass with the conjunction
    of the active criteria. *)
Lemma filteredClients_keeps (clients : list ClientAssignment) :
  filteredClients newDate currentDate clients
    searchQuery locationFilter applicationFilter agentFilter monthFilter
  = List.filter
      (keeps newDate currentDate
         searchQuery locationFilter applicationFilter agentFilter monthFilter)
      clients.
Proof using Type.
  unfold filteredClients, keeps.
  destruct (truthy searchQuery), (String.eqb locationFilter "all-locations"),
    (String.eqb applicationFilter "all-applications"),
    (String.eqb agentFilter "all-agents"), (String.eqb monthFilter "all-months");
    cbn [negb orb]; rewrite ?filter_filter;
    first [ symmetry; apply filter_true
          | apply filter_ext; intros c;
            repeat match goal with
              | |- context [matchesSearch ?q c] => destruct (matchesSearch q c)
              | |- context [String.eqb ?a ?b] => destruct (String.eqb a b)
              | |- context [matchesMonth ?a ?b ?m c] => destruct (matchesMonth a b m c)
              end; reflexivity ].
Qed.

End Criterion.

(** Conjunctive semantics: a record is shown exactly when it is in the list
    and passes every active filter; a filter is inactive when the query is
    empty, respectively when its value is the sentinel. *)
Theorem filteredClients_conjunctive (newDate : string -> Date) (currentDate : Date)
    (clients : list ClientAssignment)
    (searchQuery locationFilter applicationFilter agentFilter monthFilter : string)
    (client : ClientAssignment) :
  In client (filteredClients newDate currentDate clients
               searchQuery locationFilter applicationFilter agentFilter monthFilter)
  <-> In client clients
      /\ (searchQuery = "" \/ matchesSearch (toLowerCase searchQuery) client = true)
      /\ (locationFilter = "all-locations"
          \/ toLowerCase (location client) = locationFilter)
      /\ (applicationFilter = "all-applications"
          \/ toLowerCase (application client) = applicationFilter)
      /\ (agentFilter = "all-agents"
          \/ toLowerCase (assignedAgent client) = agentFilter)
      /\ (monthFilter = "all-months"
          \/ matchesMonth newDate currentDate monthFilter client = true).
Proof.
  rewrite filteredClients_keeps, filter_In. unfold keeps.
  rewrite !andb_true_iff, !orb_true_iff, !String.eqb_eq, negb_true_iff.
  assert (T : truthy searchQuery = false <-> searchQuery = "")
    by (destruct searchQuery; simpl; split; congruence).
  rewrite T. tauto.
Qed.

(** The filter effect is idempotent, returns a sublist of its input in the
    input's order, and judges every record on its own: filtering two lists
    one after the other gives what filtering their concatenation gives. *)
Theorem filteredClients_stable (newDate : string -> Date) (currentDate : Date)
    (clients more : list ClientAssignment)
    (searchQuery locationFilter applicationFilter agentFilter monthFilter : string) :
  let apply l :=
    filteredClients newDate currentDate l
      searchQuery locationFilter applicationFilter agentFilter monthFilter in
  apply (apply clients) = apply clients
  /\ sublist (apply clients) clients
  /\ apply (clients ++ more) = apply clients ++ apply more.
Proof.
  cbv beta zeta. rewrite !filteredClients_keeps.
  split; [apply filter_idem|]. split; [apply filter_sublist | apply List.filter_app].
Qed.

Lemma lookupMonth_not_keyword (monthFilter : string) (m : Z) :
  lookupMonth monthFilter monthMap = Some m ->
  String.eqb monthFilter "current" = false
  /\ String.eqb monthFilter "previous" = false
  /\ String.eqb monthFilter "all-months" = false.
Proof.
  intros L. repeat split; apply String.eqb_neq; intros ->; discriminate L.
Qed.

(** A month code compares the month the [Date] object reads, for any
    reading of dates: the year and today's date play no part. *)
Theorem month_code_ignores_year (newDate : string -> Date) (currentDate : Date)
    (clients : list ClientAssignment)
    (searchQuery locationFilter applicationFilter agentFilter monthFilter : string)
    (m : Z) (client : ClientAssignment) :
  lookupMonth monthFilter monthMap = Some m ->
  In client (filteredClients newDate currentDate clients
               searchQuery locationFilter applicationFilter agentFilter monthFilter)
  <-> In client (filteredClients newDate currentDate clients
                   searchQuery locationFilter applicationFilter agentFilter "all-months")
      /\ getMonth (newDate (date client)) = Some m.
Proof.
  intros L. destruct (lookupMonth_not_keyword _ _ L) as (C & P & A).
  unfold filteredClients. rewrite A.
  change (negb ("all-months" =? "all-months")%string) with false.
  cbn [negb]. rewrite filter_In. unfold matchesMonth. rewrite C, P, L.
  now rewrite strictEq_Some.
Qed.

Lemma month_code_ignores_year_witness :
  In (mkClient "1" "Ann" "30" "NY" "Unknown" "Unknown" "Kel" "1999-03-15" None None)
     (filteredClients
        (fun s => if String.eqb s "1999-03-15" then LocalDate 1999 2 else InvalidDate)
        (LocalDate 2024 0)
        [mkClient "1" "Ann" "30" "NY" "Unknown" "Unknown" "Kel" "1999-03-15" None None]
        "" "all-locations" "all-applications" "all-agents" "mar").
Proof.
  apply (proj2 (month_code_ignores_year
                  (fun s => if String.eqb s "1999-03-15" then LocalDate 1999 2 else InvalidDate)
                  (LocalDate 2024 0)
                  [mkClient "1" "Ann" "30" "NY" "Unknown" "Unknown" "Kel" "1999-03-15" None None]
                  "" "all-locations" "all-applications" "all-agents" "mar" 2
                  (mkClient "1" "Ann" "30" "NY" "Unknown" "Unknown" "Kel" "1999-03-15" None None)
                  eq_refl)).
  split; [left; reflexivity | reflexivity].
Defined.

(** A month filter value that is neither a sentinel, nor "current" or
    "previous", nor one of the twelve month codes, hides every record. *)
Theorem unknown_month_hides_all (newDate : string -> Date) (currentDate : Date)
    (clients : list ClientAssignment)
    (searchQuery locationFilter applicationFilter agentFilter monthFilter : string) :
  monthFilter <> "all-months" -> monthFilter <> "current" -> monthFilter <> "previous" ->
  lookupMonth monthFilter monthMap = None ->
  filteredClients newDate currentDate clients
    searchQuery locationFilter applicationFilter agentFilter monthFilter = [].
Proof.
  intros A C P L. unfold filteredClients.
  apply String.eqb_neq in A, C, P. rewrite A. cbn [negb].
  match goal with |- List.filter _ ?l = [] => generalize l end.
  intros l. induction l as [|c l IH]; [reflexivity|].
  simpl. unfold matchesMonth at 1. now rewrite C, P, L.
Qed.

Lemma unknown_month_hides_all_witness :
  filteredClients (fun _ => LocalDate 2024 0) (LocalDate 2024 0)
    [mkClient "1" "Ann" "30" "NY" "Unknown" "Unknown" "Kel" "2024-01-15" None None]
    "" "all-locations" "all-applications" "all-agents" "January" = [].
Proof.
  apply unknown_month_hides_all; try discriminate. reflexivity.
Defined.

(** The search does not depend on the case of the query: two queries that
    agree after lower-casing select the same records. *)
Theorem search_query_case_insensitive (newDate : string -> Date) (currentDate : Date)
    (clients : list ClientAssignment)
    (query1 query2 locationFilter applicationFilter agentFilter monthFilter : string) :
  toLowerCase query1 = toLowerCase query2 ->
  filteredClients newDate currentDate clients
    query1 locationFilter applicationFilter agentFilter monthFilter
  = filteredClients newDate currentDate clients
      query2 locationFilter applicationFilter agentFilter monthFilter.
Proof.
  intros E. unfold filteredClients.
  rewrite <- (truthy_toLowerCase query1), <- (truthy_toLowerCase query2).
  now rewrite E.
Qed.

Lemma search_query_case_insensitive_witness :
  filteredClients (fun _ => InvalidDate) InvalidDate
    [mkClient "1" "Ann" "30" "NY" "Unknown" "Unknown" "Kel" "2024-01-15" None None;
     mkClient "2" "Bea" "41" "LA" "Unknown" "Unknown" "Ken" "2024-01-16" None None]
    "ANN" "all-locations" "all-applications" "all-agents" "all-months"
  = [mkClient "1" "Ann" "30" "NY" "Unknown" "Unknown" "Kel" "2024-01-15" None None].
Proof.
  rewrite (search_query_case_insensitive (fun _ => InvalidDate) InvalidDate _
             "ANN" "ann" "all-locations" "all-applications" "all-agents" "all-months"
             eq_refl).
  reflexivity.
Defined.

Lemma eqb_lower_fixed (s filter : string) :
  String.eqb (toLowerCase s) filter = true -> toLowerCase filter = filter.
Proof. intros <-%String.eqb_eq. apply toLowerCase_idem. Qed.

Lemma filter_none {A : Type} (p : A -> bool) (l : list A) :
  (forall x, p x = false) -> List.filter p l = [].
Proof.
  intros H. induction l as [|x l IH]; simpl; [reflexivity|]. now rewrite H.
Qed.

(** The three categorical filters compare the lower-cased field with the
    filter value as it is: a value that is not in lower case (other than by
    being the sentinel) matches no record at all. *)
Theorem mixed_case_filter_hides_all (newDate : string -> Date) (currentDate : Date)
    (clients : list ClientAssignment)
    (searchQuery locationFilter applicationFilter agentFilter monthFilter : string) :
  toLowerCase locationFilter <> locationFilter
  \/ toLowerCase applicationFilter <> applicationFilter
  \/ toLowerCase agentFilter <> agentFilter ->
  filteredClients newDate currentDate clients
    searchQuery locationFilter applicationFilter agentFilter monthFilter = [].
Proof.
  intros H. rewrite filteredClients_keeps. apply filter_none. intros c.
  unfold keeps. destruct H as [H|[H|H]].
  - assert (S : String.eqb locationFilter "all-locations" = false).
    { apply String.eqb_neq. intros ->. now apply H. }
    destruct (String.eqb (toLowerCase (location c)) locationFilter) eqn:E.
    + apply eqb_lower_fixed in E. contradiction.
    + rewrite S. cbn [orb]. now rewrite andb_false_r.
  - assert (S : String.eqb applicationFilter "all-applications" = false).
    { apply String.eqb_neq. intros ->. now apply H. }
    destruct (String.eqb (toLowerCase (application c)) applicationFilter) eqn:E.
    + apply eqb_lower_fixed in E. contradiction.
    + rewrite S. cbn [orb]. now rewrite !andb_false_r.
  - assert (S : String.eqb agentFilter "all-agents" = false).
    { apply String.eqb_neq. intros ->. now apply H. }
    destruct (String.eqb (toLowerCase (assignedAgent c)) agentFilter) eqn:E.
    + apply eqb_lower_fixed in E. contradiction.
    + rewrite S. cbn [orb]. now rewrite !andb_false_r.
Qed.

Lemma mixed_case_filter_hides_all_witness :
  filteredClients (fun _ => InvalidDate) InvalidDate
    [mkClient "1" "Ann" "30" "NY" "Unknown" "Unknown" "Kel" "2024-01-15" None None]
    "" "NY" "all-applications" "all-agents" "all-months" = [].
Proof.
  apply mixed_case_filter_hides_all. left. discriminate.
Defined.

End FilterFacts.

(** ** Dashboard figures and filter options *)

Module FigureFacts.
Import JS JSFacts JSMore Dashboard FilterFacts.

Lemma unique_In (values : list string) (v : string) :
  In v (unique values) <-> In v values.
Proof.
  induction values as [|w values IH]; simpl; [tauto|].
  rewrite filter_In, IH, negb_true_iff, String.eqb_neq.
  destruct (string_dec w v) as [->|N]; [tauto|].
  split; [tauto|]. intros [E|I]; [contradiction|]. right. split; [assumption|congruence].
Qed.

Lemma NoDup_filter {A : Type} (p : A -> bool) (l : list A) :
  List.NoDup l -> List.NoDup (List.filter p l).
Proof.
  induction 1 as [|x l N D IH]; simpl; [constructor|].
  destruct (p x); [|assumption]. constructor; [|assumption].
  intros [I _]%filter_In. contradiction.
Qed.

Lemma unique_NoDup (values : list string) : List.NoDup (unique values).
Proof.
  induction values as [|w values IH]; simpl; constructor.
  - intros [_ N]%filter_In. now rewrite String.eqb_refl in N.
  - now apply NoDup_filter.
Qed.

Lemma uniqueLocations_options_aux (clients : list ClientAssignment) (option : string) :
  In option (uniqueLocations clients)
  <-> exists client, In client clients /\ toLowerCase (location client) = option.
Proof. unfold uniqueLocations. rewrite unique_In, in_map_iff. split; intros (c & H1 & H2); eauto. Qed.

(** The location options of the filter: every lower-cased location of the
    list, each exactly once. *)
Theorem uniqueLocations_options (clients : list ClientAssignment) :
  List.NoDup (uniqueLocations clients)
  /\ forall option,
       In option (uniqueLocations clients)
       <-> exists client, In client clients /\ toLowerCase (location client) = option.
Proof.
  split; [apply unique_NoDup | apply uniqueLocations_options_aux].
Qed.

(** Choosing one of the offered locations never empties the table: with no
    other filter active it shows exactly the records at that location,
    whatever their spelling, and there is at least one.  (An option that
    reads like the sentinel is the one exception left out.) *)
Theorem location_option_selects (newDate : string -> Date) (currentDate : Date)
    (clients : list ClientAssignment) (option : string) :
  In option (uniqueLocations clients) ->
  option <> "all-locations" ->
  let shown :=
    filteredClients newDate currentDate clients
      "" option "all-applications" "all-agents" "all-months" in
  shown <> []
  /\ forall client,
       In client shown <-> In client clients /\ toLowerCase (location client) = option.
Proof.
  intros I N shown. subst shown.
  assert (E : filteredClients newDate currentDate clients
                "" option "all-applications" "all-agents" "all-months"
              = List.filter (fun c => String.eqb (toLowerCase (location c)) option) clients).
  { unfold filteredClients. apply String.eqb_neq in N. now rewrite N. }
  rewrite E. split.
  - apply uniqueLocations_options_aux in I as (c & Ic & Ec).
    intros F. assert (H : In c []); [|destruct H].
    rewrite <- F. apply filter_In. split; [assumption | now apply String.eqb_eq].
  - intros c. now rewrite filter_In, String.eqb_eq.
Qed.

Lemma location_option_selects_witness :
  filteredClients (fun _ => InvalidDate) InvalidDate
    [mkClient "1" "Ann" "30" "New York" "Unknown" "Unknown" "Kel" "2024-01-15" None None;
     mkClient "2" "Bea" "41" "LA" "Unknown" "Unknown" "Ken" "2024-01-16" None None;
     mkClient "3" "Cy" "25" "NEW YORK" "Unknown" "Unknown" "Ken" "2024-01-17" None None]
    "" "new york" "all-applications" "all-agents" "all-months"
  <> [].
Proof.
  apply (location_option_selects (fun _ => InvalidDate) InvalidDate
           [mkClient "1" "Ann" "30" "New York" "Unknown" "Unknown" "Kel" "2024-01-15" None None;
            mkClient "2" "Bea" "41" "LA" "Unknown" "Unknown" "Ken" "2024-01-16" None None;
            mkClient "3" "Cy" "25" "NEW YORK" "Unknown" "Unknown" "Ken" "2024-01-17" None None]
           "new york").
  - left. reflexivity.
  - discriminate.
Defined.

(** *** Workloads *)

Lemma agentWorkloads_eq (clients : list ClientAssignment) :
  agentWorkloads clients
  = map (fun a => (toLowerCase a, workload clients (toLowerCase a))) agents.
Proof. reflexivity. Qed.

(** The first element of a list sorted by falling count: the first of the
    elements with the highest count. *)
Lemma head_sort (l : list (string * nat)) :
  l <> [] ->
  exists pre x post,
    l = pre ++ x :: post
    /\ head (sort (fun a b => (Z.of_nat (snd b) - Z.of_nat (snd a))%Z) l) = Some x
    /\ (forall y, In y pre -> snd y < snd x)
    /\ (forall y, In y post -> snd y <= snd x).
Proof.
  induction l as [|a l IH]; [contradiction|]. intros _.
  destruct l as [|b l].
  - exists [], a, []. split; [reflexivity|]. split; [reflexivity|]. split; intros y [].
  - destruct (IH ltac:(discriminate)) as (pre & x & post & E & H & Lt & Le).
    set (cmp := fun a b : string * nat => (Z.of_nat (snd b) - Z.of_nat (snd a))%Z) in *.
    change (sort cmp (a :: b :: l)) with (insertSorted cmp a (sort cmp (b :: l))).
    destruct (sort cmp (b :: l)) as [|x' r]; [discriminate|].
    cbn [head] in H. injection H as H. subst x'. cbn [insertSorted].
    unfold cmp at 1.
    destruct (0 <? Z.of_nat (snd x) - Z.of_nat (snd a))%Z eqn:C.
    + apply Z.ltb_lt in C. exists (a :: pre), x, post. rewrite E.
      split; [reflexivity|]. split; [reflexivity|]. split; [|exact Le].
      intros y [<- | I]; [lia | now apply Lt].
    + apply Z.ltb_ge in C. exists [], a, (b :: l).
      split; [reflexivity|]. split; [reflexivity|]. split; [intros y []|].
      intros y I. rewrite E in I. apply in_app_or in I as [I | [<- | I]].
      * apply Lt in I. lia.
      * lia.
      * apply Le in I. lia.
Qed.

Lemma find_agent (a : string) :
  In a agents ->
  find (fun a' => String.eqb (toLowerCase a') (toLowerCase a)) agents = Some a
  /\ truthy a = true.
Proof.
  intros I. repeat (destruct I as [<- | I]; [split; reflexivity|]). destruct I.
Qed.

(** The "Top Agent" card: "-" when no listed agent has a client; otherwise
    the listed agent with the most clients, the first of them in the order
    of the list when several are level. *)
Theorem topAgentName_most_clients (clients : list ClientAssignment) :
  (topAgentName clients = "-"
   /\ forall a, In a agents -> workload clients (toLowerCase a) = 0)
  \/ (exists before a after,
        agents = before ++ a :: after
        /\ topAgentName clients = a
        /\ 0 < workload clients (toLowerCase a)
        /\ (forall b, In b before ->
              workload clients (toLowerCase b) < workload clients (toLowerCase a))
        /\ (forall b, In b after ->
              workload clients (toLowerCase b) <= workload clients (toLowerCase a))).
Proof.
  unfold topAgentName, topAgent.
  destruct (head_sort (agentWorkloads clients)) as (pre & x & post & E & H & Lt & Le);
    [discriminate|].
  rewrite H. rewrite agentWorkloads_eq in E.
  apply map_eq_app in E as (before & rest & Ea & Eb & Er).
  destruct rest as [|a after]; [discriminate|].
  cbn [map] in Er. injection Er as Ex Ep. subst pre x post.
  cbn [snd] in *.
  assert (Ia : In a agents) by (rewrite Ea; apply in_elt).
  destruct (find_agent a Ia) as [F T].
  destruct (0 <? workload clients (toLowerCase a)) eqn:P.
  - right. exists before, a, after. apply Nat.ltb_lt in P.
    rewrite F. unfold orElse. rewrite T.
    repeat split; try assumption.
    + intros b I. apply (Lt (toLowerCase b, workload clients (toLowerCase b))).
      now apply (in_map (fun a => (toLowerCase a, workload clients (toLowerCase a)))).
    + intros b I. apply (Le (toLowerCase b, workload clients (toLowerCase b))).
      now apply (in_map (fun a => (toLowerCase a, workload clients (toLowerCase a)))).
  - left. split; [reflexivity|]. apply Nat.ltb_ge in P.
    intros b I. rewrite Ea in I. apply in_app_or in I as [I | [<- | I]].
    + specialize (Lt (toLowerCase b, workload clients (toLowerCase b))
                     (in_map (fun a => (toLowerCase a, workload clients (toLowerCase a))) _ _ I)).
      cbn [snd] in Lt. lia.
    + lia.
    + specialize (Le (toLowerCase b, workload clients (toLowerCase b))
                     (in_map (fun a => (toLowerCase a, workload clients (toLowerCase a))) _ _ I)).
      cbn [snd] in Le. lia.
Qed.

Lemma workload_cons (c : ClientAssignment) (cs : list ClientAssignment) (k : string) :
  workload (c :: cs) k
  = (if String.eqb (toLowerCase (assignedAgent c)) k then 1 else 0) + workload cs k.
Proof.
  unfold workload. simpl. now destruct (String.eqb (toLowerCase (assignedAgent c)) k).
Qed.

Lemma list_sum_plus {A : Type} (g h : A -> nat) (l : list A) :
  list_sum (map (fun a => g a + h a) l) = list_sum (map g l) + list_sum (map h l).
Proof. induction l as [|a l IH]; simpl; [reflexivity | lia]. Qed.

Lemma indicator_sum (x : string) (keys : list string) :
  List.NoDup keys ->
  list_sum (map (fun k => if String.eqb x k then 1 else 0) keys)
  = if existsb (String.eqb x) keys then 1 else 0.
Proof.
  induction 1 as [|k keys N D IH]; [reflexivity|].
  simpl. destruct (String.eqb_spec x k) as [->|Ne]; simpl; [|assumption].
  rewrite IH. destruct (existsb (String.eqb k) keys) eqn:E; [|reflexivity].
  apply existsb_exists in E as (y & I & ->%String.eqb_eq). contradiction.
Qed.

Lemma agent_keys_NoDup : List.NoDup (map toLowerCase agents).
Proof.
  assert (E : nodup string_dec (map toLowerCase agents) = map toLowerCase agents)
    by reflexivity.
  rewrite <- E. apply List.NoDup_nodup.
Qed.

(** The workload figures count every client at most once: they add up to
    the number of clients assigned, in any spelling, to one of the listed
    agents, hence to no more than the total; a client of any other agent is
    counted nowhere. *)
Theorem workloads_add_up (clients : list ClientAssignment) :
  list_sum (map snd (agentWorkloads clients))
  = length (List.filter
              (fun c => existsb (String.eqb (toLowerCase (assignedAgent c)))
                                (map toLowerCase agents))
              clients)
  /\ list_sum (map snd (agentWorkloads clients)) <= totalClients clients.
Proof.
  assert (E : list_sum (map snd (agentWorkloads clients))
              = length (List.filter
                          (fun c => existsb (String.eqb (toLowerCase (assignedAgent c)))
                                            (map toLowerCase agents))
                          clients)).
  { rewrite agentWorkloads_eq, map_map. cbn [snd].
    rewrite <- (map_map toLowerCase (workload clients)).
    induction clients as [|c cs IH]; [reflexivity|].
    rewrite (map_ext _ _ (workload_cons c cs)), list_sum_plus.
    rewrite (indicator_sum _ _ agent_keys_NoDup), IH.
    cbn [List.filter].
    now destruct (existsb _ (map toLowerCase agents)). }
  split; [exact E|]. rewrite E. unfold totalClients.
  apply List.filter_length_le.
Qed.

End FigureFacts.

(** ** POST /clients, and POST followed by GET *)

Module PostFacts.
Import Store Route RouteFacts.

Lemma literal_is_Some (props : list (string * value)) (k : string) :
  is_Some (literal props !! k) <-> In k (map fst props).
Proof.
  unfold literal. rewrite <- list_elem_of_In. split.
  - intros [v H]. apply elem_of_list_to_map_2 in H.
    change (map fst props) with (props.*1). apply list_elem_of_fmap. now exists (k, v).
  - intros I. destruct (list_to_map props !! k) as [v|] eqn:E; [eauto|].
    apply not_elem_of_list_to_map_2 in E. contradiction.
Qed.

Lemma value_orElse_truthy (a b : value) : truthy b = true -> truthy (orElse a b) = true.
Proof. intros B. unfold orElse. destruct (truthy a) eqn:A; assumption. Qed.

Lemma POST_stored_document_keys (client : obj) (k : string) :
  is_Some (newClientDoc client !! k)
  <-> In k ["shopId"; "clientName"; "agent"; "kycDate"; "status"; "notes";
            "createdAt"; "updatedAt"].
Proof. unfold newClientDoc. now rewrite literal_is_Some. Qed.

(** What POST stores: exactly the eight named fields, whatever else the
    body carries (an [id] or any other extra field is never stored), with a
    [status] that is never empty: the submitted one, or "In Process" when
    it is absent or falsy. *)
Theorem POST_stored_document (client : obj) :
  (forall k,
     is_Some (newClientDoc client !! k)
     <-> In k ["shopId"; "clientName"; "agent"; "kycDate"; "status"; "notes";
               "createdAt"; "updatedAt"])
  /\ newClientDoc client !! "status"
     = Some (if truthy (get client "status") then get client "status" else VStr "In Process")
  /\ truthy (get (newClientDoc client) "status") = true.
Proof.
  split; [|split].
  - apply POST_stored_document_keys.
  - unfold newClientDoc, literal, orElse. cbn [list_to_map foldr fst snd].
    now simplify_map_eq.
  - unfold get at 1. unfold newClientDoc, literal. cbn [list_to_map foldr fst snd].
    simplify_map_eq. cbn [default]. now apply value_orElse_truthy.
Qed.

(** POST answers 200 exactly when it has added a document, and then it has
    added one; with any other answer nothing is added. *)
Lemma POST_writes_once {U : Type} (currentUser : option U) (request : option obj)
    (docRefId : option string) :
  let (response, added) := POST currentUser request docRefId in
  (postStatus response = 200
   /\ exists client key,
        request = Some client /\ docRefId = Some key
        /\ added = Some (mkDoc key (newClientDoc client)))
  \/ (postStatus response <> 200 /\ added = None
      /\ (postStatus response = 401 <-> currentUser = None)).
Proof.
  unfold POST. destruct currentUser as [u|].
  - destruct request as [client|].
    + destruct docRefId as [key|].
      * left. split; [reflexivity|]. exists client, key. repeat split.
      * right. cbn. repeat split; discriminate.
    + right. cbn. repeat split; discriminate.
  - right. cbn. repeat split; discriminate.
Qed.

(** The answer of a successful POST is built from the body, not from what
    was stored: in the object it hands to the JSON response every field
    other than [id] is the body's own (a defaulted [status] or [notes] is
    not put in), and [id] is the body's own [id] when it has one, the new
    key otherwise. *)
Theorem POST_echo {U : Type} (u : U) (client : obj) (key : string) :
  exists echo added,
    POST (Some u) (Some client) (Some key) = (mkPostResponse 200 (Echo echo), added)
    /\ (forall k, k <> "id" -> echo !! k = client !! k)
    /\ echo !! "id" = Some (match client !! "id" with Some v => v | None => VStr key end).
Proof.
  eexists _, _. split; [reflexivity|]. split.
  - intros k N. unfold spread, literal. cbn [list_to_map foldr fst snd].
    destruct (client !! k) as [v|] eqn:E.
    + now apply lookup_union_Some_l.
    + rewrite lookup_union_r by assumption. now rewrite lookup_insert_ne.
  - destruct (client !! "id") as [v|] eqn:E.
    + now apply spread_lookup_src.
    + rewrite spread_lookup_target by assumption.
      unfold literal. cbn [list_to_map foldr fst snd]. apply lookup_insert_eq.
Qed.

(** POST then GET: wherever a later read of the collection lists the added
    document, with the fields POST stored and the status it stored (the
    store may have resolved the timestamps), GET returns it under the key
    the store gave it, even when the submitted body had an [id] of its own,
    and with the stored status. *)
Theorem POST_then_GET {U : Type} (u : U) (client : obj) (key : string)
    (docs : list QueryDocumentSnapshot) (i : nat) (stored : QueryDocumentSnapshot) :
  nth_error docs i = Some stored ->
  id stored = key ->
  (forall k, is_Some (data stored !! k) <-> is_Some (newClientDoc client !! k)) ->
  data stored !! "status" = newClientDoc client !! "status" ->
  exists response items listed,
    POST (Some u) (Some client) (Some key)
    = (response, Some (mkDoc key (newClientDoc client)))
    /\ GET (Some u) (Some docs) = mkResponse 200 (Clients items)
    /\ nth_error items i = Some listed
    /\ listed !! "id" = Some (VStr key)
    /\ listed !! "status"
       = Some (if truthy (get client "status") then get client "status"
               else VStr "In Process").
Proof.
  intros D K Keys St.
  eexists _, (map toClient docs), (toClient stored).
  split; [reflexivity|]. split; [reflexivity|]. split; [|split].
  - now rewrite nth_error_map, D.
  - rewrite <- K. apply GET_id_default.
    destruct (data stored !! "id") eqn:E; [|reflexivity].
    assert (H : is_Some (data stored !! "id")) by eauto.
    apply Keys, POST_stored_document_keys in H.
    simpl in H. intuition discriminate.
  - unfold toClient. apply spread_lookup_src. rewrite St.
    unfold newClientDoc, literal, orElse. cbn [list_to_map foldr fst snd].
    now simplify_map_eq.
Qed.

Lemma POST_then_GET_witness :
  exists response items listed,
    POST (Some tt)
         (Some (literal [("id", VStr "mine"); ("shopId", VStr "S1");
                         ("clientName", VStr "Ann"); ("agent", VStr "Kel")]))
         (Some "a7Qx")
    = (response,
       Some (mkDoc "a7Qx"
               (newClientDoc (literal [("id", VStr "mine"); ("shopId", VStr "S1");
                                       ("clientName", VStr "Ann"); ("agent", VStr "Kel")]))))
    /\ GET (Some tt)
           (Some [mkDoc "a7Qx"
                    (literal [("shopId", VStr "S1"); ("clientName", VStr "Ann");
                              ("agent", VStr "Kel"); ("kycDate", VNull);
                              ("status", VStr "In Process"); ("notes", VStr "");
                              ("createdAt", VStr "2024-01-02T00:00:00Z");
                              ("updatedAt", VStr "2024-01-02T00:00:00Z")]);
                  mkDoc "b1" (literal [("clientName", VStr "Bea")])])
       = mkResponse 200 (Clients items)
    /\ nth_error items 0 = Some listed
    /\ listed !! "id" = Some (VStr "a7Qx")
    /\ listed !! "status"
       = Some (if truthy (get (literal [("id", VStr "mine"); ("shopId", VStr "S1");
                                        ("clientName", VStr "Ann"); ("agent", VStr "Kel")])
                              "status")
               then get (literal [("id", VStr "mine"); ("shopId", VStr "S1");
                                  ("clientName", VStr "Ann"); ("agent", VStr "Kel")])
                        "status"
               else VStr "In Process").
Proof.
  apply (POST_then_GET tt
           (literal [("id", VStr "mine"); ("shopId", VStr "S1");
                     ("clientName", VStr "Ann"); ("agent", VStr "Kel")])
           "a7Qx"
           [mkDoc "a7Qx"
              (literal [("shopId", VStr "S1"); ("clientName", VStr "Ann");
                        ("agent", VStr "Kel"); ("kycDate", VNull);
                        ("status", VStr "In Process"); ("notes", VStr "");
                        ("createdAt", VStr "2024-01-02T00:00:00Z");
                        ("updatedAt", VStr "2024-01-02T00:00:00Z")]);
            mkDoc "b1" (literal [("clientName", VStr "Bea")])]
           0
           (mkDoc "a7Qx"
              (literal [("shopId", VStr "S1"); ("clientName", VStr "Ann");
                        ("agent", VStr "Kel"); ("kycDate", VNull);
                        ("status", VStr "In Process"); ("notes", VStr "");
                        ("createdAt", VStr "2024-01-02T00:00:00Z");
                        ("updatedAt", VStr "2024-01-02T00:00:00Z")]))
           eq_refl eq_refl).
  - intros k. cbn [data]. rewrite literal_is_Some, POST_stored_document_keys. reflexivity.
  - vm_compute. reflexivity.
Defined.

End PostFacts.

(** ** More on the migration *)

Module MigrateMore.
Import Store Migrate MigrateFacts.

Section Sequential.

Variable accepts : string -> obj -> bool.

Lemma insertAll_writeAll (coll : string) (build : obj -> obj) (items : list obj)
    (db : Writes) :
  insertAll accepts coll build items db
  = writeAll accepts (map (fun x => (coll, build x)) items) db.
Proof using Type.
  revert db. induction items as [|x items IH]; intros db; [reflexivity|].
  cbn [insertAll writeAll map fst snd]. now rewrite IH.
Qed.

Lemma writeAll_app (e1 e2 : Writes) (db : Writes) :
  andThen (writeAll accepts e1 db) (writeAll accepts e2)
  = writeAll accepts (e1 ++ e2) db.
Proof using Type.
  revert db. induction e1 as [|e e1 IH]; intros db; [reflexivity|].
  cbn [writeAll app]. destruct (accepts (fst e) (snd e)); [apply IH | reflexivity].
Qed.

Lemma andThen_ext (r : Writes * bool) (k k' : Writes -> Writes * bool) :
  (forall db, k db = k' db) -> andThen r k = andThen r k'.
Proof using Type. intros H. unfold andThen. now destruct (snd r). Qed.

(** The five loops are one pass over [allWrites]. *)
Lemma migrateData_writeAll (ls : Storage) (db : Writes) :
  migrateData accepts ls db = writeAll accepts (allWrites ls) db.
Proof using Type.
  unfold migrateData, allWrites.
  rewrite insertAll_writeAll, <- writeAll_app. apply andThen_ext. intros db1.
  rewrite insertAll_writeAll, <- writeAll_app. apply andThen_ext. intros db2.
  rewrite insertAll_writeAll, <- writeAll_app. apply andThen_ext. intros db3.
  rewrite insertAll_writeAll, <- writeAll_app. apply andThen_ext. intros db4.
  apply insertAll_writeAll.
Qed.

Lemma writeAll_prefix (entries db : Writes) :
  exists k,
    fst (writeAll accepts entries db) = db ++ firstn k entries
    /\ Forall (fun e => accepts (fst e) (snd e) = true) (firstn k entries)
    /\ (if snd (writeAll accepts entries db)
        then firstn k entries = entries
        else exists e, nth_error entries k = Some e /\ accepts (fst e) (snd e) = false).
Proof using Type.
  revert db. induction entries as [|e entries IH]; intros db.
  - exists 0. cbn. rewrite app_nil_r. repeat split. constructor.
  - cbn [writeAll]. destruct (accepts (fst e) (snd e)) eqn:A.
    + destruct (IH (db ++ [e])) as (k & E & F & Hs). exists (S k).
      cbn [firstn nth_error]. rewrite E, <- app_assoc. split; [reflexivity|].
      split; [now constructor|].
      destruct (snd (writeAll accepts entries (db ++ [e]))); [now rewrite Hs | assumption].
    + exists 0. cbn. rewrite app_nil_r. repeat split; [constructor | eauto].
Qed.

End Sequential.

(** No rollback and no skipping: the migration writes the documents of
    [allWrites] in order and stops at the first one the store rejects.
    What it has written is always a prefix of that list; it reports
    completion exactly when the prefix is the whole list, and otherwise the
    next document of the list is the rejected one. *)
Theorem migration_stops_at_first_rejection (accepts : string -> obj -> bool)
    (ls : Storage) :
  exists k,
    fst (migrateData accepts ls []) = firstn k (allWrites ls)
    /\ Forall (fun e => accepts (fst e) (snd e) = true) (firstn k (allWrites ls))
    /\ (if snd (migrateData accepts ls [])
        then firstn k (allWrites ls) = allWrites ls
        else exists e,
               nth_error (allWrites ls) k = Some e /\ accepts (fst e) (snd e) = false).
Proof.
  rewrite migrateData_writeAll.
  destruct (writeAll_prefix accepts (allWrites ls) []) as (k & E & F & Hs).
  exists k. now rewrite E.
Qed.

(** There is no guard against running twice: a second run over the same
    fallback store, every write accepted, inserts every document again. *)
Theorem migration_rerun_duplicates (ls : Storage) :
  migrateData (fun _ _ => true) ls (fst (migrateData (fun _ _ => true) ls []))
  = (allWrites ls ++ allWrites ls, true).
Proof.
  rewrite !migrateData_writeAll.
  assert (H : forall entries db,
             writeAll (fun _ _ => true) entries db = (db ++ entries, true)).
  { induction entries as [|e entries IH]; intros db; cbn [writeAll].
    - now rewrite app_nil_r.
    - now rewrite IH, <- app_assoc. }
  now rewrite !H.
Qed.

End MigrateMore.

(** ** The month filter on yyyy-mm-dd dates *)

Module DateFacts.
Import JS Dashboard DashboardFacts FilterFacts.

Example parseISODate_ok : parseISODate "2024-02-29" = Some (2024, 2, 29)%Z.
Proof. reflexivity. Qed.

Example parseISODate_not_a_day : parseISODate "2023-02-29" = None.
Proof. reflexivity. Qed.

Example dayBefore_new_year : dayBefore (2024, 1, 1)%Z = (2023, 12, 31)%Z.
Proof. reflexivity. Qed.

Example dayBefore_march : dayBefore (2024, 3, 1)%Z = (2024, 2, 29)%Z.
Proof. reflexivity. Qed.

(** East of UTC, and at UTC, the local day is the day the string names. *)
Lemma newDateISO_east (offsetAt : Z -> Z -> Z -> Z) (otherwise : string -> Date)
    (s : string) (y m d : Z) :
  parseISODate s = Some (y, m, d) ->
  (0 <= offsetAt y m d < 1440)%Z ->
  newDateISO offsetAt otherwise s = LocalDate y (m - 1).
Proof.
  intros P R. unfold newDateISO. rewrite P.
  now rewrite (Z.div_small _ _ R).
Qed.

(** West of UTC it is the day before. *)
Lemma newDateISO_west (offsetAt : Z -> Z -> Z -> Z) (otherwise : string -> Date)
    (s : string) (y m d : Z) :
  parseISODate s = Some (y, m, d) ->
  (-1440 <= offsetAt y m d < 0)%Z ->
  newDateISO offsetAt otherwise s
  = LocalDate (fst (fst (dayBefore (y, m, d)))) (snd (fst (dayBefore (y, m, d))) - 1).
Proof.
  intros P R. unfold newDateISO. rewrite P.
  assert (E : (offsetAt y m d / 1440 = -1)%Z).
  { symmetry. apply (Z.div_unique _ _ _ (offsetAt y m d + 1440)%Z); lia. }
  rewrite E. change (addDays (-1) (y, m, d)) with (dayBefore (y, m, d)).
  now destruct (dayBefore (y, m, d)) as [[y' m'] d'].
Qed.




(** A month code filters on the month alone, whatever the year and
    whatever today's date: for a record whose date is a yyyy-mm-dd calendar
    date, on a host at or ahead of UTC it passes exactly when its date's
    month is that month, and on a host behind UTC exactly when the day
    before its date falls in that month. *)
Theorem month_code_reads_local (offsetAt : Z -> Z -> Z -> Z)
    (otherwise : string -> Date) (currentDate : Date)
    (clients : list ClientAssignment)
    (searchQuery locationFilter applicationFilter agentFilter monthFilter : string)
    (code : Z) (client : ClientAssignment) (y m d : Z) :
  lookupMonth monthFilter monthMap = Some code ->
  parseISODate (date client) = Some (y, m, d) ->
  let shown monthFilter :=
    filteredClients (newDateISO offsetAt otherwise) currentDate clients
      searchQuery locationFilter applicationFilter agentFilter monthFilter in
  ((0 <= offsetAt y m d < 1440)%Z ->
   (In client (shown monthFilter)
    <-> In client (shown "all-months") /\ m = (code + 1)%Z))
  /\ ((-1440 <= offsetAt y m d < 0)%Z ->
      (In client (shown monthFilter)
       <-> In client (shown "all-months")
           /\ snd (fst (dayBefore (y, m, d))) = (code + 1)%Z)).
Proof.
  intros L P shown. subst shown. cbv beta.
  split; intros R;
    rewrite (month_code_ignores_year _ currentDate clients _ _ _ _ _ code client L).
  - rewrite (newDateISO_east _ _ _ _ _ _ P R). cbn [getMonth].
    split; intros (I & A); (split; [exact I|]);
      [assert (H : (m - 1 = code)%Z) by congruence; lia | f_equal; lia].
  - rewrite (newDateISO_west _ _ _ _ _ _ P R). cbn [getMonth].
    split; intros (I & A); (split; [exact I|]);
      [assert (H : (snd (fst (dayBefore (y, m, d))) - 1 = code)%Z) by congruence; lia
      | f_equal; lia].
Qed.

Lemma month_code_reads_local_witness :
  In (mkClient "1" "Ann" "30" "NY" "Unknown" "Unknown" "Kel" "1999-04-01" None None)
     (filteredClients (newDateISO (fun _ _ _ => (-480)%Z) (fun _ => InvalidDate))
        (LocalDate 2024 0)
        [mkClient "1" "Ann" "30" "NY" "Unknown" "Unknown" "Kel" "1999-04-01" None None]
        "" "all-locations" "all-applications" "all-agents" "mar").
Proof.
  apply (proj2 (month_code_reads_local (fun _ _ _ => (-480)%Z) (fun _ => InvalidDate)
                  (LocalDate 2024 0)
                  [mkClient "1" "Ann" "30" "NY" "Unknown" "Unknown" "Kel" "1999-04-01" None None]
                  "" "all-locations" "all-applications" "all-agents" "mar" 2
                  (mkClient "1" "Ann" "30" "NY" "Unknown" "Unknown" "Kel" "1999-04-01" None None)
                  1999 4 1 eq_refl eq_refl)).
  - lia.
  - split; [left; reflexivity | reflexivity].
Defined.

End DateFacts.
